(** * The downstream connection registry of mcp-composer

    A shallow embedding of [src/downstream_controller.py] (the class
    [DownstreamController]) and of the two server-management handlers of
    [src/api.py], together with the properties of the registry.

    Python objects are modelled as records, dictionaries as [gmap]s, the
    ordered list [_all_servers_tools] as a [list].  Every method runs in a
    small state-and-exception monad [M]: a raised exception keeps the
    mutations done before it, exactly as in Python.  The awaited calls on
    downstream connections ([initialize], [list_tools], [shutdown]) and on
    the exit stack ([aclose]) leave the process: they are logged in a trace
    and answered by an oracle [Downstream] that sees the whole history. *)

From stdpp Require Import gmap strings list fin_maps.

(** ** Data model *)

Module Domain.

(** Modelled from the spec: [domain/downstream_server.py] is not among the
    sources.  [DownstreamMCPServerConfig] has a required [name] and either a
    process [command] (with [args] and [env]) or a [url] (spec section 3 and
    the payloads of the tests). *)
Record DownstreamMCPServerConfig := mkConfig {
  name : string;
  command : option string;
  url : option string;
  args : list string;
  env : list (string * string)
}.

(** Modelled from the spec: the wrapped tool descriptor
    (name, description, input schema). *)
Record Tool := mkTool {
  tool_name : string;
  description : string;
  inputSchema : string
}.

(** Modelled from the spec: a [DownstreamMCPServerTool] wraps a [Tool] and
    carries the control name of its owning server and its own
    [control_name], which the constructor derives from the two.  The
    controller only ever reads [tool.control_name]. *)
Record DownstreamMCPServerTool := mkServerTool {
  server_control_name : string;
  control_name : string;
  tool : Tool
}.

(** Modelled from the spec: a [DownstreamMCPServer] is a Python object; the
    class defines no [__eq__], so [==] and [!=] compare object identity.
    [server_id] is that identity, [config] the configuration the
    constructor was given. *)
Record DownstreamMCPServer := mkServer {
  server_id : nat;
  config : DownstreamMCPServerConfig
}.

(** Modelled from the spec: [get_control_name] returns the immutable
    identity copied from the configuration, [config.name]. *)
Definition get_control_name (s : DownstreamMCPServer) : string :=
  name (config s).

(** [s != server] on two server objects. *)
Definition server_ne (s server : DownstreamMCPServer) : bool :=
  negb (server_id s =? server_id server).

#[global] Instance config_eq_dec : EqDecision DownstreamMCPServerConfig.
Proof. solve_decision. Defined.
#[global] Instance tool_eq_dec : EqDecision Tool.
Proof. solve_decision. Defined.
#[global] Instance server_tool_eq_dec : EqDecision DownstreamMCPServerTool.
Proof. solve_decision. Defined.
#[global] Instance server_eq_dec : EqDecision DownstreamMCPServer.
Proof. solve_decision. Defined.

End Domain.
Export Domain.

(** ** Exceptions and outcomes *)

Inductive exn :=
  | KeyError (key : string)
  | ValueError
  | ConnectionError
  | HTTPException (status_code : nat) (detail : string)
  | CancelledError.

(** [except Exception] catches everything but the [BaseException]-only
    classes; of those only [asyncio.CancelledError] can reach this code. *)
Definition is_Exception (e : exn) : bool :=
  match e with CancelledError => false | _ => true end.

Definition is_HTTPException (e : exn) : bool :=
  match e with HTTPException _ _ => true | _ => false end.

Inductive outcome (A : Type) :=
  | Ok (a : A)
  | Raise (e : exn).
Arguments Ok {A} a.
Arguments Raise {A} e.

#[global] Instance exn_eq_dec : EqDecision exn.
Proof. solve_decision. Defined.
#[global] Instance outcome_eq_dec `{EqDecision A} : EqDecision (outcome A).
Proof. solve_decision. Defined.

(** ** The world: the controller object and the trace of awaited calls *)

Abbreviation servers_tools :=
  (list (DownstreamMCPServer * list DownstreamMCPServerTool)).

Record DownstreamController := mkController {
  _all_servers_tools : servers_tools;
  _servers_map : gmap string DownstreamMCPServer;
  _tools_map : gmap string DownstreamMCPServerTool;
  configs : list DownstreamMCPServerConfig;
  _initialized : bool
}.

(** The calls that leave the controller, in the order they are awaited. *)
Inductive event :=
  | EvInitialize (s : DownstreamMCPServer)
  | EvListTools (s : DownstreamMCPServer)
  | EvShutdown (s : DownstreamMCPServer)
  | EvAclose.

#[global] Instance event_eq_dec : EqDecision event.
Proof. solve_decision. Defined.
#[global] Instance controller_eq_dec : EqDecision DownstreamController.
Proof. solve_decision. Defined.

Record World := mkWorld {
  self : DownstreamController;
  trace : list event
}.

(** The behaviour of the downstream connections and of the exit stack:
    each answer may depend on the server asked and on everything that was
    awaited before. *)
Record Downstream := mkDownstream {
  on_initialize : list event → DownstreamMCPServer → outcome ();
  on_list_tools :
    list event → DownstreamMCPServer → outcome (list DownstreamMCPServerTool);
  on_shutdown : list event → DownstreamMCPServer → outcome ();
  on_aclose : list event → outcome ()
}.

(** [DownstreamController.__init__] *)
Definition __init__ (cfgs : list DownstreamMCPServerConfig)
  : DownstreamController :=
  {| _all_servers_tools := [];
     _servers_map := ∅;
     _tools_map := ∅;
     configs := cfgs;
     _initialized := false |}.

Definition new_world (cfgs : list DownstreamMCPServerConfig) : World :=
  {| self := __init__ cfgs; trace := [] |}.

(** ** The monad *)

Definition M (A : Type) : Type := World → outcome A * World.

#[global] Instance M_ret : MRet M := λ A a w, (Ok a, w).
#[global] Instance M_bind : MBind M := λ A B f m w,
  match m w with
  | (Ok a, w') => f a w'
  | (Raise e, w') => (Raise e, w')
  end.

Definition raise {A} (e : exn) : M A := λ w, (Raise e, w).

Definition get_self : M DownstreamController := λ w, (Ok (self w), w).

Definition modify_self (f : DownstreamController → DownstreamController)
  : M () :=
  λ w, (Ok (), {| self := f (self w); trace := trace w |}).

Definition await {A} (ev : event) (answer : list event → outcome A) : M A :=
  λ w, (answer (trace w), {| self := self w; trace := trace w ++ [ev] |}).

(** [for x in l: body(x)] *)
Fixpoint for_each {A} (l : list A) (body : A → M ()) : M () :=
  match l with
  | [] => mret ()
  | x :: l' => body x ;; for_each l' body
  end.

(** [async with self._asyncio_lock: body].  Calls are modelled one at a
    time, so the lock is free on entry and released on every exit. *)
Definition with_asyncio_lock {A} (body : M A) : M A := body.

(** Field updates of the controller object. *)
Definition set_all_servers_tools (f : servers_tools → servers_tools)
    (c : DownstreamController) : DownstreamController :=
  {| _all_servers_tools := f (_all_servers_tools c);
     _servers_map := _servers_map c;
     _tools_map := _tools_map c;
     configs := configs c;
     _initialized := _initialized c |}.

Definition set_servers_map
    (f : gmap string DownstreamMCPServer → gmap string DownstreamMCPServer)
    (c : DownstreamController) : DownstreamController :=
  {| _all_servers_tools := _all_servers_tools c;
     _servers_map := f (_servers_map c);
     _tools_map := _tools_map c;
     configs := configs c;
     _initialized := _initialized c |}.

Definition set_tools_map
    (f : gmap string DownstreamMCPServerTool →
         gmap string DownstreamMCPServerTool)
    (c : DownstreamController) : DownstreamController :=
  {| _all_servers_tools := _all_servers_tools c;
     _servers_map := _servers_map c;
     _tools_map := f (_tools_map c);
     configs := configs c;
     _initialized := _initialized c |}.

Definition set_initialized (b : bool) (c : DownstreamController)
  : DownstreamController :=
  {| _all_servers_tools := _all_servers_tools c;
     _servers_map := _servers_map c;
     _tools_map := _tools_map c;
     configs := configs c;
     _initialized := b |}.

(** ** The downstream connection, seen from the controller *)

(** The server objects reachable from the controller. *)
Definition live_servers (c : DownstreamController) : list DownstreamMCPServer :=
  (_all_servers_tools c).*1 ++ (map_to_list (_servers_map c)).*2.

(** The server object an awaited call was made on. *)
Definition event_server (ev : event) : option DownstreamMCPServer :=
  match ev with
  | EvInitialize s | EvListTools s | EvShutdown s => Some s
  | EvAclose => None
  end.

(** The server objects that exist or have existed: those the controller
    holds and those a call was ever awaited on (every server is initialised
    right after it is built, so that every server built so far is among
    them). *)
Definition known_servers (w : World) : list DownstreamMCPServer :=
  live_servers (self w) ++ omap event_server (trace w).

(** [DownstreamMCPServer(config)]: a new object, distinct from every object
    built before it; an identity is never handed out twice. *)
Definition new_server (w : World) (cfg : DownstreamMCPServerConfig)
  : DownstreamMCPServer :=
  {| server_id := S (max_list (server_id <$> known_servers w));
     config := cfg |}.

Definition new_DownstreamMCPServer (cfg : DownstreamMCPServerConfig)
  : M DownstreamMCPServer :=
  λ w, (Ok (new_server w cfg), w).

(** [await server.initialize(self.exit_stack)] *)
Definition server_initialize (D : Downstream) (server : DownstreamMCPServer)
  : M () :=
  await (EvInitialize server) (λ h, on_initialize D h server).

(** [await server.list_tools()] *)
Definition server_list_tools (D : Downstream) (server : DownstreamMCPServer)
  : M (list DownstreamMCPServerTool) :=
  await (EvListTools server) (λ h, on_list_tools D h server).

(** [await server.shutdown()] *)
Definition server_shutdown (D : Downstream) (server : DownstreamMCPServer)
  : M () :=
  await (EvShutdown server) (λ h, on_shutdown D h server).

(** [await self.exit_stack.aclose()] *)
Definition exit_stack_aclose (D : Downstream) : M () :=
  await EvAclose (on_aclose D).

(** ** The methods of [DownstreamController] *)

Definition register_downstream_mcp_server (D : Downstream)
    (cfg : DownstreamMCPServerConfig) : M () :=
  server ← new_DownstreamMCPServer cfg;
  server_initialize D server ;;
  modify_self (set_servers_map <[get_control_name server := server]>) ;;
  tools ← server_list_tools D server;
  modify_self (set_all_servers_tools (λ l, l ++ [(server, tools)])) ;;
  for_each tools (λ tool,
    modify_self (set_tools_map <[control_name tool := tool]>)).

Definition initialize (D : Downstream) : M () :=
  with_asyncio_lock (
    c ← get_self;
    for_each (configs c) (register_downstream_mcp_server D) ;;
    modify_self (set_initialized true)).

Definition is_initialized : M bool :=
  c ← get_self; mret (_initialized c).

Definition shutdown (D : Downstream) : M () :=
  with_asyncio_lock (
    c ← get_self;
    for_each (_all_servers_tools c) (λ '(server, _),
      server_shutdown D server) ;;
    exit_stack_aclose D).

Definition list_all_servers_tools : M servers_tools :=
  c ← get_self; mret (_all_servers_tools c).

(** [d[key]]: [KeyError] on a missing key. *)
Definition getitem `(d : gmap string V) (key : string) : M V :=
  match d !! key with
  | Some v => mret v
  | None => raise (KeyError key)
  end.

Definition get_tool_by_control_name (tool_control_name : string)
  : M DownstreamMCPServerTool :=
  c ← get_self; getitem (_tools_map c) tool_control_name.

Definition get_server_by_control_name (server_control_name : string)
  : M DownstreamMCPServer :=
  c ← get_self; getitem (_servers_map c) server_control_name.

Definition add_server (D : Downstream) (cfg : DownstreamMCPServerConfig)
  : M () :=
  with_asyncio_lock (
    server ← new_DownstreamMCPServer cfg;
    server_initialize D server ;;
    modify_self (set_servers_map <[get_control_name server := server]>) ;;
    tools ← server_list_tools D server;
    modify_self (set_all_servers_tools (λ l, l ++ [(server, tools)])) ;;
    for_each tools (λ tool,
      modify_self (set_tools_map <[control_name tool := tool]>))).

(** [self._servers_map.pop(key)] *)
Definition servers_map_pop (key : string) : M DownstreamMCPServer :=
  c ← get_self;
  server ← getitem (_servers_map c) key;
  modify_self (set_servers_map (delete key)) ;;
  mret server.

Definition remove_server (D : Downstream) (server_control_name : string)
  : M () :=
  with_asyncio_lock (
    c ← get_self;
    if bool_decide (server_control_name ∉ dom (_servers_map c)) then mret ()
    else
      server ← servers_map_pop server_control_name;
      server_shutdown D server ;;
      modify_self (set_all_servers_tools
        (filter (λ st, server_ne st.1 server = true))) ;;
      tools_to_remove ← server_list_tools D server;
      for_each tools_to_remove (λ tool,
        c ← get_self;
        if bool_decide (control_name tool ∈ dom (_tools_map c))
        then modify_self (set_tools_map (delete (control_name tool)))
        else mret ())).

(** ** The server-management handlers of [api.py] *)

Module Api.

Definition HTTP_200_OK : nat := 200.
Definition HTTP_201_CREATED : nat := 201.
Definition HTTP_404_NOT_FOUND : nat := 404.
Definition HTTP_409_CONFLICT : nat := 409.
Definition HTTP_500_INTERNAL_SERVER_ERROR : nat := 500.

(** What the framework sends for a handler that returns normally: the
    status code of the route decorator and the [message] of the body. *)
Record Response := mkResponse {
  status : nat;
  message : string
}.

#[global] Instance response_eq_dec : EqDecision Response.
Proof. solve_decision. Defined.

(** [try: body / except ...: handler]; [handler e = None] when no [except]
    clause matches [e], which then propagates. *)
Definition try_except {A} (body : M A) (handler : exn → option (M A))
  : M A :=
  λ w, match body w with
       | (Ok a, w') => (Ok a, w')
       | (Raise e, w') =>
           match handler e with
           | Some h => h w'
           | None => (Raise e, w')
           end
       end.

(** The [logger] calls of the handlers are not modelled. *)
Definition add_new_server (D : Downstream) (cfg : DownstreamMCPServerConfig)
  : M Response :=
  try_except (
    try_except (
      get_server_by_control_name (name cfg) ;;
      raise (HTTPException HTTP_409_CONFLICT
        ("Server with control name '" +:+ name cfg +:+ "' already exists.")))
      (λ e, match e with KeyError _ => Some (mret ()) | _ => None end) ;;
    add_server D cfg ;;
    mret {| status := HTTP_201_CREATED;
            message := "Server '" +:+ name cfg +:+ "' added successfully." |})
    (λ e,
      if is_HTTPException e then Some (raise e)
      else if is_Exception e then
        Some (raise (HTTPException HTTP_500_INTERNAL_SERVER_ERROR
          ("An unexpected error occurred while adding server '"
             +:+ name cfg +:+ "'.")))
      else None).

Definition remove_existing_server (D : Downstream)
    (server_control_name : string) : M Response :=
  try_except (
    try_except (
      get_server_by_control_name server_control_name ;; mret ())
      (λ e, match e with
            | KeyError _ =>
                Some (raise (HTTPException HTTP_404_NOT_FOUND
                  ("Server with control name '" +:+ server_control_name
                     +:+ "' not found.")))
            | _ => None
            end) ;;
    remove_server D server_control_name ;;
    mret {| status := HTTP_200_OK;
            message := "Server '" +:+ server_control_name
                         +:+ "' removed successfully." |})
    (λ e,
      if is_HTTPException e then Some (raise e)
      else if is_Exception e then
        Some (raise (HTTPException HTTP_500_INTERNAL_SERVER_ERROR
          ("An unexpected error occurred while removing server '"
             +:+ server_control_name +:+ "'.")))
      else None).

End Api.

(** ** Concrete configurations, tools and downstream behaviours *)

Module Samples.

Definition cfg (n : string) : DownstreamMCPServerConfig :=
  {| name := n; command := Some ("echo " +:+ n); url := None;
     args := []; env := [] |}.

Definition tl (srv t : string) : DownstreamMCPServerTool :=
  {| server_control_name := srv;
     control_name := srv +:+ "-" +:+ t;
     tool := {| tool_name := t; description := "A mock tool";
               inputSchema := "{}" |} |}.

(** The tool catalogue of the scenario of the spec: A has t1 and t2, B has
    t3, any other server has none. *)
Definition catalogue (s : DownstreamMCPServer) : list DownstreamMCPServerTool :=
  if String.eqb (get_control_name s) "A" then [tl "A" "t1"; tl "A" "t2"]
  else if String.eqb (get_control_name s) "B" then [tl "B" "t3"]
  else [].

(** Every call succeeds and a connection always reports the same tools. *)
Definition steady : Downstream :=
  {| on_initialize := λ _ _, Ok ();
     on_list_tools := λ _ s, Ok (catalogue s);
     on_shutdown := λ _ _, Ok ();
     on_aclose := λ _, Ok () |}.

(** A connection that was shut down no longer answers [list_tools]. *)
Definition closed_after_shutdown : Downstream :=
  {| on_initialize := λ _ _, Ok ();
     on_list_tools := λ h s,
       if bool_decide (EvShutdown s ∈ h) then Raise ConnectionError
       else Ok (catalogue s);
     on_shutdown := λ _ _, Ok ();
     on_aclose := λ _, Ok () |}.

(** A connection that was shut down reports an empty catalogue. *)
Definition empty_after_shutdown : Downstream :=
  {| on_initialize := λ _ _, Ok ();
     on_list_tools := λ h s,
       if bool_decide (EvShutdown s ∈ h) then Ok [] else Ok (catalogue s);
     on_shutdown := λ _ _, Ok ();
     on_aclose := λ _, Ok () |}.

(** The shutdown of the connection named A fails. *)
Definition failing_shutdown : Downstream :=
  {| on_initialize := λ _ _, Ok ();
     on_list_tools := λ _ s, Ok (catalogue s);
     on_shutdown := λ _ s,
       if String.eqb (get_control_name s) "A" then Raise ConnectionError
       else Ok ();
     on_aclose := λ _, Ok () |}.

(** The target named B cannot be reached. *)
Definition unreachable_B : Downstream :=
  {| on_initialize := λ _ s,
       if String.eqb (get_control_name s) "B" then Raise ConnectionError
       else Ok ();
     on_list_tools := λ _ s, Ok (catalogue s);
     on_shutdown := λ _ _, Ok ();
     on_aclose := λ _, Ok () |}.

(** Only the first connection that is built answers [list_tools]. *)
Definition only_first_lists : Downstream :=
  {| on_initialize := λ _ _, Ok ();
     on_list_tools := λ _ s,
       if server_id s =? 1 then Ok (catalogue s) else Raise ConnectionError;
     on_shutdown := λ _ _, Ok ();
     on_aclose := λ _, Ok () |}.


End Samples.
Import Samples.

(** ** Sequences of calls *)

Inductive call :=
  | AddServer (cfg : DownstreamMCPServerConfig)
  | RemoveServer (server_control_name : string).

Definition perform (D : Downstream) (c : call) : M () :=
  match c with
  | AddServer cfg => add_server D cfg
  | RemoveServer n => remove_server D n
  end.

(** The world after a sequence of calls; a call that raises leaves the
    world it reached, and the next call starts from there. *)
Fixpoint run (D : Downstream) (cs : list call) (w : World) : World :=
  match cs with
  | [] => w
  | c :: cs' => run D cs' (perform D c w).2
  end.

(** Every call of the sequence returns normally. *)
Fixpoint succeeds (D : Downstream) (cs : list call) (w : World) : bool :=
  match cs with
  | [] => true
  | c :: cs' =>
      bool_decide ((perform D c w).1 = Ok ()) && succeeds D cs' (perform D c w).2
  end.

(** No [add_server] of the sequence is called with a control name that is
    a key of [_servers_map] at that moment. *)
Fixpoint adds_unregistered (D : Downstream) (cs : list call) (w : World)
  : bool :=
  match cs with
  | [] => true
  | c :: cs' =>
      match c with
      | AddServer cfg => bool_decide (name cfg ∉ dom (_servers_map (self w)))
      | RemoveServer _ => true
      end && adds_unregistered D cs' (perform D c w).2
  end.

(** The configurations submitted by the [add_server] calls, in order. *)
Fixpoint added_configs (cs : list call) : list DownstreamMCPServerConfig :=
  match cs with
  | [] => []
  | AddServer cfg :: cs' => cfg :: added_configs cs'
  | RemoveServer _ :: cs' => added_configs cs'
  end.

(** What the downstream answers to [add_server cfg] in world [w]: the
    connection that is built and the tool list it reports, when both
    [initialize] and [list_tools] return. *)
Definition add_answer (D : Downstream) (w : World)
    (cfg : DownstreamMCPServerConfig)
  : option (DownstreamMCPServer * list DownstreamMCPServerTool) :=
  let server := new_server w cfg in
  match on_initialize D (trace w) server with
  | Raise _ => None
  | Ok _ =>
      match on_list_tools D (trace w ++ [EvInitialize server]) server with
      | Raise _ => None
      | Ok tools => Some (server, tools)
      end
  end.

(** The pair that a call registers: that of an accepted [add_server]. *)
Definition registration (D : Downstream) (c : call) (w : World)
  : servers_tools :=
  match c with
  | AddServer cfg => option_list (add_answer D w cfg)
  | RemoveServer _ => []
  end.

(** The registration history of a run: the (server, tool-list) pairs of
    its [add_server] calls, in the order of the calls. *)
Fixpoint registrations (D : Downstream) (cs : list call) (w : World)
  : servers_tools :=
  match cs with
  | [] => []
  | c :: cs' => registration D c w ++ registrations D cs' (perform D c w).2
  end.

(** ** Registered servers and their tools *)

(** [s] is one of the values of [_servers_map]. *)
Definition registered (c : DownstreamController) (s : DownstreamMCPServer)
  : Prop :=
  map_Exists (λ _ x, x = s) (_servers_map c).

#[global] Instance registered_dec c s : Decision (registered c s).
Proof. unfold registered. apply _. Defined.

(** All the tools of a list of (server, tool-list) pairs. *)
Definition all_tools (l : servers_tools) : list DownstreamMCPServerTool :=
  mjoin l.*2.

(** The tool list stored with [server] in [_all_servers_tools], that is the
    list captured when the server was added. *)
Definition captured_tools (c : DownstreamController)
    (server : DownstreamMCPServer) : list DownstreamMCPServerTool :=
  all_tools (filter (λ st, server_ne st.1 server = false) (_all_servers_tools c)).

Definition tool_names (tools : list DownstreamMCPServerTool) : gset string :=
  list_to_set (control_name <$> tools).

(** The control names of the tools of the currently registered servers. *)
Definition registered_tool_names (c : DownstreamController) : gset string :=
  tool_names
    (all_tools (filter (λ st, registered c st.1) (_all_servers_tools c))).

Definition tool_index_consistent (c : DownstreamController) : Prop :=
  dom (_tools_map c) = registered_tool_names c.

(** The keys of the tool index are the control names of the listed tools. *)
Definition tools_listed (c : DownstreamController) : Prop :=
  dom (_tools_map c) = tool_names (all_tools (_all_servers_tools c)).

(** When [remove_server n] finds its server in world [w], the [list_tools]
    awaited after the shutdown returns tools with the control names of the
    tool list captured when that server was added. *)
Definition requery_as_captured (D : Downstream) (w : World) (n : string)
  : bool :=
  match _servers_map (self w) !! n with
  | None => true
  | Some server =>
      match on_list_tools D (trace w ++ [EvShutdown server]) server with
      | Ok tools =>
          bool_decide
            (tool_names tools = tool_names (captured_tools (self w) server))
      | Raise _ => false
      end
  end.

(** The same at every [remove_server] of a sequence. *)
Fixpoint requeries_as_captured (D : Downstream) (cs : list call) (w : World)
  : bool :=
  match cs with
  | [] => true
  | c :: cs' =>
      match c with
      | AddServer _ => true
      | RemoveServer n => requery_as_captured D w n
      end && requeries_as_captured D cs' (perform D c w).2
  end.

(** ** The effect of the two loops over tools *)

(** [for tool in tools: self._tools_map[tool.control_name] = tool] *)
Definition index_tools (tools : list DownstreamMCPServerTool)
    (m : gmap string DownstreamMCPServerTool)
  : gmap string DownstreamMCPServerTool :=
  foldl (λ m tool, <[control_name tool := tool]> m) m tools.

(** [for tool in tools: if tool.control_name in m: del m[tool.control_name]] *)
Definition purge_tools (tools : list DownstreamMCPServerTool)
    (m : gmap string DownstreamMCPServerTool)
  : gmap string DownstreamMCPServerTool :=
  foldl (λ m tool, delete (control_name tool) m) m tools.

(** The server map and the tool index after the registrations [regs], made
    in order: each server is written under its control name, then each of
    its tools under the tool's control name. *)
Definition map_servers (regs : servers_tools)
    (m : gmap string DownstreamMCPServer) : gmap string DownstreamMCPServer :=
  foldl (λ m st, <[get_control_name st.1 := st.1]> m) m regs.

Definition index_all_tools (regs : servers_tools)
    (m : gmap string DownstreamMCPServerTool)
  : gmap string DownstreamMCPServerTool :=
  foldl (λ m st, index_tools st.2 m) m regs.

(** The controller after a successful registration of [server] with the
    tool list [tools], and after a successful removal of [server] that was
    registered under [n] and purged with the tool list [tools]. *)
Definition with_server (server : DownstreamMCPServer)
    (tools : list DownstreamMCPServerTool) (c : DownstreamController)
  : DownstreamController :=
  set_tools_map (index_tools tools)
    (set_all_servers_tools (λ l, l ++ [(server, tools)])
       (set_servers_map <[get_control_name server := server]> c)).

Definition without_server (n : string) (server : DownstreamMCPServer)
    (tools : list DownstreamMCPServerTool) (c : DownstreamController)
  : DownstreamController :=
  set_tools_map (purge_tools tools)
    (set_all_servers_tools (filter (λ st, server_ne st.1 server = true))
       (set_servers_map (delete n) c)).

(** ** The invariant of the registry *)

(** The server map and the ordered list hold the same server objects, each
    mapped under its own control name, and no object is listed twice. *)
Record consistent_servers (c : DownstreamController) : Prop := {
  mapped_is_listed : ∀ k s,
    _servers_map c !! k = Some s →
    get_control_name s = k ∧ s ∈ (_all_servers_tools c).*1;
  listed_is_mapped : ∀ s,
    s ∈ (_all_servers_tools c).*1 →
    _servers_map c !! get_control_name s = Some s;
  listed_once : NoDup (server_id <$> (_all_servers_tools c).*1)
}.

(** The ordered list is the registration history [H] restricted to the
    servers that are still registered. *)
Definition lists_registered_of (H : servers_tools)
    (c : DownstreamController) : Prop :=
  _all_servers_tools c = filter (λ st, registered c st.1) H.

(** Every server of the history [H] has had a call awaited on it. *)
Definition history_awaited (H : servers_tools) (w : World) : Prop :=
  ∀ st, st ∈ H → st.1 ∈ omap event_server (trace w).

#[global] Instance lists_registered_of_dec H c :
  Decision (lists_registered_of H c).
Proof. unfold lists_registered_of. apply _. Defined.

(** ** The removal that the spec describes *)

(** The spec's [remove_server]: no-op if absent; otherwise remove from the
    server map, shut the connection down, and purge its tools from the tool
    index using the tool list captured at add time, which is the list kept
    with the server in [_all_servers_tools].  The connection is not queried
    again. *)
Definition remove_server_as_specified (D : Downstream)
    (server_control_name : string) : M () :=
  with_asyncio_lock (
    c ← get_self;
    if bool_decide (server_control_name ∉ dom (_servers_map c)) then mret ()
    else
      server ← servers_map_pop server_control_name;
      server_shutdown D server ;;
      modify_self (set_all_servers_tools
        (filter (λ st, server_ne st.1 server = true))) ;;
      for_each (captured_tools c server) (λ tool,
        c ← get_self;
        if bool_decide (control_name tool ∈ dom (_tools_map c))
        then modify_self (set_tools_map (delete (control_name tool)))
        else mret ())).

(** ** Exceptions at the boundary *)

(** What a handler makes of an exception that reaches its outer [try]. *)
Definition at_boundary (detail : string) (e : exn) : exn :=
  if is_HTTPException e then e
  else if is_Exception e then HTTPException 500 detail
  else e.

(** ** What [shutdown] awaits *)

(** The shutdowns of [servers], awaited in order after the history [h],
    all return. *)
Fixpoint shutdowns_succeed (D : Downstream) (h : list event)
    (servers : list DownstreamMCPServer) : bool :=
  match servers with
  | [] => true
  | s :: servers' =>
      bool_decide (on_shutdown D h s = Ok ())
      && shutdowns_succeed D (h ++ [EvShutdown s]) servers'
  end.

(** The events that a computation appended to the trace of [w]. *)
Definition awaited {A} (m : M A) (w : World) : list event :=
  drop (length (trace w)) (trace (m w).2).

(** [shutdown] awaits the shutdown of every listed connection and then
    closes the exit stack, once. *)
Definition releases_everything_once (D : Downstream) (w : World) : Prop :=
  awaited (shutdown D) w =
  (EvShutdown <$> (_all_servers_tools (self w)).*1) ++ [EvAclose].

#[global] Instance releases_everything_once_dec D w :
  Decision (releases_everything_once D w).
Proof. unfold releases_everything_once. apply _. Defined.

(** * Properties *)

(** Closed decidable facts are settled by evaluation. *)
Ltac by_compute := apply (bool_decide_unpack _); vm_compute; exact I.

(** ** The scenario of the spec, evaluated *)

(** Register A with tools t1 and t2, then B with tool t3: both pairs are
    listed in that order.  Remove A: only the pair of B is listed and the
    tool index holds t3 only. *)
Example scenario_register_A_B_remove_A :
  let a := {| server_id := 1; config := cfg "A" |} in
  let b := {| server_id := 2; config := cfg "B" |} in
  let w := run steady [AddServer (cfg "A"); AddServer (cfg "B")]
             (new_world []) in
  let w' := (remove_server steady "A" w).2 in
  _all_servers_tools (self w)
    = [(a, [tl "A" "t1"; tl "A" "t2"]); (b, [tl "B" "t3"])] ∧
  _all_servers_tools (self w') = [(b, [tl "B" "t3"])] ∧
  _tools_map (self w') = {["B-t3" := tl "B" "t3"]} ∧
  _servers_map (self w') = {["B" := b]}.
Proof. split_and!; vm_compute; reflexivity. Qed.

(** ** How the methods run *)

Ltac unfold_M :=
  unfold with_asyncio_lock, new_DownstreamMCPServer, server_initialize,
    server_list_tools, server_shutdown, exit_stack_aclose, servers_map_pop,
    getitem, await, modify_self, get_self, raise, mbind, M_bind, mret, M_ret;
  simpl.

Lemma for_each_app {A} (l1 l2 : list A) (body : A → M ()) w :
  for_each (l1 ++ l2) body w =
  match for_each l1 body w with
  | (Ok _, w') => for_each l2 body w'
  | (Raise e, w') => (Raise e, w')
  end.
Proof.
  revert w. induction l1 as [|x l1 IH]; intros w; simpl.
  - reflexivity.
  - unfold mbind, M_bind. destruct (body x w) as [[[]|e] w']; [apply IH|done].
Qed.

Lemma for_each_index_tools tools w :
  for_each tools
    (λ tool, modify_self (set_tools_map <[control_name tool := tool]>)) w
  = (Ok (), {| self := set_tools_map (index_tools tools) (self w);
               trace := trace w |}).
Proof.
  revert w. induction tools as [|t tools IH]; intros [[l sm tm cf ini] tr].
  - reflexivity.
  - simpl. unfold_M. rewrite IH. reflexivity.
Qed.

Lemma for_each_purge_tools tools w :
  for_each tools
    (λ tool,
       c ← get_self;
       if bool_decide (control_name tool ∈ dom (_tools_map c))
       then modify_self (set_tools_map (delete (control_name tool)))
       else mret ()) w
  = (Ok (), {| self := set_tools_map (purge_tools tools) (self w);
               trace := trace w |}).
Proof.
  revert w. induction tools as [|t tools IH]; intros [[l sm tm cf ini] tr].
  - reflexivity.
  - simpl. unfold_M. case_bool_decide as Hin.
    + rewrite IH. reflexivity.
    + rewrite IH. simpl. unfold set_tools_map, purge_tools. simpl.
      rewrite (delete_id tm (control_name t)); [done|].
      by apply not_elem_of_dom.
Qed.

Lemma add_server_register D cfg :
  add_server D cfg = register_downstream_mcp_server D cfg.
Proof. reflexivity. Qed.

(** The three ways [add_server] can go. *)
Lemma add_server_run D cfg w :
  let server := new_server w cfg in
  let tr1 := trace w ++ [EvInitialize server] in
  add_server D cfg w =
  match on_initialize D (trace w) server with
  | Raise e => (Raise e, {| self := self w; trace := tr1 |})
  | Ok _ =>
      match on_list_tools D tr1 server with
      | Raise e =>
          (Raise e,
           {| self := set_servers_map <[get_control_name server := server]>
                        (self w);
              trace := tr1 ++ [EvListTools server] |})
      | Ok tools =>
          (Ok (), {| self := with_server server tools (self w);
                     trace := tr1 ++ [EvListTools server] |})
      end
  end.
Proof.
  intros server tr1. unfold add_server. unfold_M. fold server. fold tr1.
  destruct (on_initialize D (trace w) server) as [[]|e]; [|done].
  destruct (on_list_tools D tr1 server) as [tools|e]; [|done].
  rewrite for_each_index_tools. reflexivity.
Qed.

(** The ways [remove_server] can go. *)
Lemma remove_server_run D n w :
  remove_server D n w =
  match _servers_map (self w) !! n with
  | None => (Ok (), w)
  | Some server =>
      let tr1 := trace w ++ [EvShutdown server] in
      match on_shutdown D (trace w) server with
      | Raise e =>
          (Raise e, {| self := set_servers_map (delete n) (self w);
                       trace := tr1 |})
      | Ok _ =>
          match on_list_tools D tr1 server with
          | Raise e =>
              (Raise e,
               {| self := set_all_servers_tools
                            (filter (λ st, server_ne st.1 server = true))
                            (set_servers_map (delete n) (self w));
                  trace := tr1 ++ [EvListTools server] |})
          | Ok tools =>
              (Ok (), {| self := without_server n server tools (self w);
                         trace := tr1 ++ [EvListTools server] |})
          end
      end
  end.
Proof.
  unfold remove_server. unfold_M.
  destruct (_servers_map (self w) !! n) as [server|] eqn:Hn.
  - rewrite bool_decide_eq_false_2.
    2:{ intros Hnot. apply Hnot, elem_of_dom. eauto. }
    simpl. rewrite Hn. simpl.
    destruct (on_shutdown D (trace w) server) as [[]|e]; [|done].
    destruct (on_list_tools D _ server) as [tools|e]; [|done].
    rewrite for_each_purge_tools. reflexivity.
  - rewrite bool_decide_eq_true_2; [done|].
    by apply not_elem_of_dom.
Qed.

(** Whatever happens, [remove_server n] leaves the server map without [n]. *)
Lemma remove_server_map D n w :
  _servers_map (self (remove_server D n w).2) = delete n (_servers_map (self w)).
Proof.
  rewrite remove_server_run.
  destruct (_servers_map (self w) !! n) as [server|] eqn:Hn; simpl.
  - destruct (on_shutdown D _ _) as [[]|e]; [|done].
    by destruct (on_list_tools D _ _) as [tools|e].
  - symmetry. by apply delete_id.
Qed.

(** ** A new server object is distinct from every live one *)

Lemma new_server_above_known w cfg s :
  s ∈ known_servers w → server_id s < server_id (new_server w cfg).
Proof.
  intros Hs. simpl. apply Nat.lt_succ_r, max_list_elem_of_le.
  by apply list_elem_of_fmap_2.
Qed.

Lemma new_server_above_listed w cfg s :
  s ∈ (_all_servers_tools (self w)).*1 →
  server_id s < server_id (new_server w cfg).
Proof.
  intros Hs. apply new_server_above_known.
  unfold known_servers, live_servers. rewrite !elem_of_app. auto.
Qed.

Lemma new_server_above_mapped w cfg k s :
  _servers_map (self w) !! k = Some s →
  server_id s < server_id (new_server w cfg).
Proof.
  intros Hs. apply new_server_above_known.
  unfold known_servers, live_servers. rewrite !elem_of_app. left. right.
  apply list_elem_of_fmap. exists (k, s). split; [done|].
  by apply elem_of_map_to_list.
Qed.

Lemma new_server_above_awaited w cfg s :
  s ∈ omap event_server (trace w) →
  server_id s < server_id (new_server w cfg).
Proof.
  intros Hs. apply new_server_above_known.
  unfold known_servers. rewrite elem_of_app. auto.
Qed.

Lemma server_ne_true s server :
  server_ne s server = true ↔ server_id s ≠ server_id server.
Proof.
  unfold server_ne. rewrite negb_true_iff. apply Nat.eqb_neq.
Qed.

Lemma server_ne_false s server :
  server_ne s server = false ↔ server_id s = server_id server.
Proof.
  unfold server_ne. rewrite negb_false_iff. apply Nat.eqb_eq.
Qed.

Lemma add_answer_Some D w cfg server tools :
  add_answer D w cfg = Some (server, tools) →
  server = new_server w cfg ∧
  on_initialize D (trace w) server = Ok () ∧
  on_list_tools D (trace w ++ [EvInitialize server]) server = Ok tools.
Proof.
  unfold add_answer.
  destruct (on_initialize D _ _) as [[]|e] eqn:Hi; [|done].
  destruct (on_list_tools D _ _) as [ts|e] eqn:Hl; [|done].
  intros [= <- <-]. done.
Qed.

(** A registration that the downstream accepts. *)
Lemma add_server_accepted D cfg w server tools :
  add_answer D w cfg = Some (server, tools) →
  add_server D cfg w =
  (Ok (), {| self := with_server server tools (self w);
             trace := trace w ++ [EvInitialize server; EvListTools server] |}).
Proof.
  intros (-> & Hi & Hl)%add_answer_Some. rewrite add_server_run.
  simpl in *. rewrite Hi, Hl. by rewrite <-app_assoc.
Qed.

(** [add_server] returns only when the downstream accepted. *)
Lemma add_server_returns D cfg w :
  (add_server D cfg w).1 = Ok () →
  ∃ tools, add_answer D w cfg = Some (new_server w cfg, tools).
Proof.
  rewrite add_server_run. unfold add_answer. simpl.
  destruct (on_initialize D _ _) as [[]|e]; [|done].
  destruct (on_list_tools D _ _) as [tools|e]; [|done].
  intros _. by exists tools.
Qed.

(** ** The tool index after the two loops *)

Lemma index_tools_cons t tools m :
  index_tools (t :: tools) m = index_tools tools (<[control_name t := t]> m).
Proof. reflexivity. Qed.

Lemma purge_tools_cons t tools m :
  purge_tools (t :: tools) m = purge_tools tools (delete (control_name t) m).
Proof. reflexivity. Qed.

Lemma index_tools_lookup_other tools m k :
  k ∉ control_name <$> tools → index_tools tools m !! k = m !! k.
Proof.
  revert m. induction tools as [|t tools IH]; intros m Hk; [done|].
  rewrite index_tools_cons, IH.
  - apply lookup_insert_ne. intros <-. apply Hk. simpl. left.
  - intros Hin. apply Hk. simpl. by right.
Qed.

(** The last tool of the list that bears a control name is the one the
    index holds under it. *)
Lemma index_tools_lookup_last tools m i t :
  tools !! i = Some t →
  (∀ j t', i < j → tools !! j = Some t' → control_name t' ≠ control_name t) →
  index_tools tools m !! control_name t = Some t.
Proof.
  revert m i. induction tools as [|t0 tools IH]; intros m i Hi Hlast; [done|].
  rewrite index_tools_cons. destruct i as [|i]; simpl in Hi.
  - injection Hi as ->. rewrite index_tools_lookup_other.
    + apply lookup_insert_eq.
    + intros (t' & Heq & (j & Hj)%list_elem_of_lookup)%list_elem_of_fmap.
      apply (Hlast (S j) t'); [lia|done|done].
  - apply (IH _ i); [done|]. intros j t' Hij Hj.
    apply (Hlast (S j) t'); [lia|done].
Qed.

Lemma dom_index_tools tools m :
  dom (index_tools tools m) = dom m ∪ tool_names tools.
Proof.
  revert m. induction tools as [|t tools IH]; intros m.
  - unfold tool_names. simpl. set_solver.
  - rewrite index_tools_cons, IH, dom_insert_L.
    unfold tool_names. simpl. set_solver.
Qed.

Lemma dom_purge_tools tools m :
  dom (purge_tools tools m) = dom m ∖ tool_names tools.
Proof.
  revert m. induction tools as [|t tools IH]; intros m.
  - unfold tool_names. simpl. set_solver.
  - rewrite purge_tools_cons, IH, dom_delete_L.
    unfold tool_names. simpl. set_solver.
Qed.

Lemma purge_tools_lookup tools m k :
  purge_tools tools m !! k =
  if decide (k ∈ control_name <$> tools) then None else m !! k.
Proof.
  revert m. induction tools as [|t tools IH]; intros m.
  - simpl. destruct (decide (k ∈ [])) as [H|H]; [|done].
    by apply elem_of_nil in H.
  - rewrite purge_tools_cons, IH. rewrite fmap_cons.
    destruct (decide (k = control_name t)) as [->|Hne].
    + rewrite lookup_delete_eq.
      rewrite (decide_True (P := control_name t ∈ _ :: _)) by left.
      by destruct (decide (control_name t ∈ control_name <$> tools)).
    + rewrite lookup_delete_ne by done.
      destruct (decide (k ∈ control_name <$> tools)) as [H1|H1];
        destruct (decide (k ∈ control_name t :: (control_name <$> tools)))
        as [H2|H2]; try done.
      * exfalso. apply H2. by right.
      * exfalso. apply elem_of_cons in H2 as [?|?]; done.
Qed.

Lemma purge_tools_same_names tools tools' m :
  tool_names tools' = tool_names tools →
  purge_tools tools' m = purge_tools tools m.
Proof.
  intros Hnames. apply map_eq. intros k. rewrite !purge_tools_lookup.
  assert (k ∈ control_name <$> tools' ↔ k ∈ control_name <$> tools) as Hiff.
  { unfold tool_names in Hnames.
    by rewrite <-!(elem_of_list_to_set (C := gset string)), Hnames. }
  destruct (decide (k ∈ control_name <$> tools'));
    destruct (decide (k ∈ control_name <$> tools)); tauto.
Qed.

(** Purging the tools that were just indexed gives back the index, when
    none of their control names was a key before. *)
Lemma purge_index_tools tools m :
  (∀ t, t ∈ tools → control_name t ∉ dom m) →
  purge_tools tools (index_tools tools m) = m.
Proof.
  intros Hfresh. apply map_eq. intros k. rewrite purge_tools_lookup.
  destruct (decide (k ∈ control_name <$> tools)) as [Hk|Hk].
  - apply list_elem_of_fmap in Hk as (t & -> & Ht). symmetry.
    by apply not_elem_of_dom, Hfresh.
  - by apply index_tools_lookup_other.
Qed.

(** ** Removing a server that is not there *)

(** C8. For every world and every control name that is not a key of
    [_servers_map], [remove_server] returns normally and leaves the whole
    world as it was: the controller object is unchanged and nothing is
    awaited. *)
Theorem remove_server_absent_is_noop D server_control_name w :
  server_control_name ∉ dom (_servers_map (self w)) →
  remove_server D server_control_name w = (Ok (), w).
Proof.
  intros Habsent%not_elem_of_dom. rewrite remove_server_run.
  by rewrite Habsent.
Qed.

Lemma remove_server_absent_is_noop_witness :
  let w := run steady [AddServer (cfg "A")] (new_world []) in
  ("non_existent_server" ∉ dom (_servers_map (self w))) ∧
  remove_server closed_after_shutdown "non_existent_server" w = (Ok (), w).
Proof.
  assert ("non_existent_server" ∉
          dom (_servers_map
                 (self (run steady [AddServer (cfg "A")] (new_world [])))))
    as Habsent by by_compute.
  split; [exact Habsent|].
  exact (remove_server_absent_is_noop closed_after_shutdown
           "non_existent_server" _ Habsent).
Defined.

(** ** Adding under a control name that is taken *)

(** C6. [add_server] with a control name that is already a key of
    [_servers_map] returns normally and replaces the entry by the new
    server object; every tool is written into [_tools_map] under its
    control name whether or not that key exists, the last tool of the list
    bearing a control name being the one that stays; keys that no new tool
    bears keep their entries. *)
Theorem add_server_overwrites D cfg w old server tools :
  _servers_map (self w) !! name cfg = Some old →
  add_answer D w cfg = Some (server, tools) →
  ∃ w',
    add_server D cfg w = (Ok (), w') ∧
    _servers_map (self w') = <[name cfg := server]> (_servers_map (self w)) ∧
    _servers_map (self w') !! name cfg = Some server ∧
    server_ne old server = true ∧
    _tools_map (self w') = index_tools tools (_tools_map (self w)) ∧
    (∀ i t, tools !! i = Some t →
       (∀ j t', i < j → tools !! j = Some t' →
          control_name t' ≠ control_name t) →
       _tools_map (self w') !! control_name t = Some t) ∧
    (∀ k, k ∉ control_name <$> tools →
       _tools_map (self w') !! k = _tools_map (self w) !! k).
Proof.
  intros Hold Hans. eexists. split; [by apply add_server_accepted|].
  apply add_answer_Some in Hans as (-> & _ & _). simpl.
  split_and!.
  - done.
  - unfold get_control_name. simpl. apply lookup_insert_eq.
  - apply server_ne_true.
    pose proof (new_server_above_mapped w cfg _ _ Hold). lia.
  - done.
  - intros i t Hi Hlast. by apply (index_tools_lookup_last _ _ i).
  - intros k Hk. by apply index_tools_lookup_other.
Qed.



Lemma add_server_overwrites_witness :
  let w := run steady [AddServer (cfg "A")] (new_world []) in
  let old := {| server_id := 1; config := cfg "A" |} in
  let server := {| server_id := 2; config := cfg "A" |} in
  let tools := [tl "A" "t1"; tl "A" "t2"] in
  _servers_map (self w) !! name (cfg "A") = Some old ∧
  add_answer steady w (cfg "A") = Some (server, tools) ∧
  ∃ w', add_server steady (cfg "A") w = (Ok (), w') ∧
        _servers_map (self w') !! name (cfg "A") = Some server ∧
        _tools_map (self w') !! "A-t1" = Some (tl "A" "t1").
Proof.
  intros w old server tools.
  assert (_servers_map (self w) !! name (cfg "A") = Some old) as Hold
    by (vm_compute; reflexivity).
  assert (add_answer steady w (cfg "A") = Some (server, tools)) as Hans
    by (vm_compute; reflexivity).
  split; [exact Hold|]. split; [exact Hans|].
  destruct (add_server_overwrites steady (cfg "A") w old server tools
              Hold Hans) as (w' & Hrun & _ & Hnew & _ & _ & Hlast & _).
  exists w'. split; [exact Hrun|]. split; [exact Hnew|].
  apply (Hlast 0 (tl "A" "t1")); [reflexivity|].
  intros [|[|[|j]]] t' Hlt Hj; [lia|injection Hj as <-; discriminate|
                                 discriminate|discriminate].
Defined.


(** ** The boundary operation that adds a server *)

(** C9. When the submitted name is a key of [_servers_map],
    [add_new_server] raises [HTTPException] with status 409 and the world
    is untouched: [add_server] is not entered and nothing is awaited.
    When the name is new, [add_new_server] runs [add_server]; it answers
    201 with the acknowledgment when [add_server] returns, and turns an
    exception of [add_server] into status 500 (an [HTTPException] is
    passed on, a [CancelledError] is not caught). *)
Theorem add_new_server_conflict_or_add D cfg w :
  (name cfg ∈ dom (_servers_map (self w)) →
   Api.add_new_server D cfg w =
   (Raise (HTTPException 409
      ("Server with control name '" +:+ name cfg +:+ "' already exists.")),
    w)) ∧
  (name cfg ∉ dom (_servers_map (self w)) →
   Api.add_new_server D cfg w =
   match add_server D cfg w with
   | (Ok _, w') =>
       (Ok {| Api.status := 201;
              Api.message :=
                "Server '" +:+ name cfg +:+ "' added successfully." |}, w')
   | (Raise e, w') =>
       (Raise
          (if is_HTTPException e then e
           else if is_Exception e then
             HTTPException 500
               ("An unexpected error occurred while adding server '"
                  +:+ name cfg +:+ "'.")
           else e), w')
   end).
Proof.
  split.
  - intros [old Hold]%elem_of_dom.
    unfold Api.add_new_server, Api.try_except, get_server_by_control_name.
    unfold_M. rewrite Hold. reflexivity.
  - intros Hnew%not_elem_of_dom.
    unfold Api.add_new_server, Api.try_except, get_server_by_control_name.
    unfold_M. rewrite Hnew. simpl.
    destruct (add_server D cfg w) as [[[]|e] w']; [done|].
    destruct e; reflexivity.
Qed.

Lemma add_new_server_conflict_or_add_witness :
  let w := run steady [AddServer (cfg "A")] (new_world []) in
  (name (cfg "A") ∈ dom (_servers_map (self w))) ∧
  (name (cfg "B") ∉ dom (_servers_map (self w))) ∧
  Api.add_new_server steady (cfg "A") w =
    (Raise (HTTPException 409
       "Server with control name 'A' already exists."), w) ∧
  (Api.add_new_server steady (cfg "B") w).1 =
    Ok {| Api.status := 201;
          Api.message := "Server 'B' added successfully." |}.
Proof.
  intros w.
  assert (name (cfg "A") ∈ dom (_servers_map (self w))) as Htaken
    by by_compute.
  assert (name (cfg "B") ∉ dom (_servers_map (self w))) as Hnew
    by by_compute.
  split; [exact Htaken|]. split; [exact Hnew|]. split.
  - exact (proj1 (add_new_server_conflict_or_add steady (cfg "A") w) Htaken).
  - rewrite (proj2 (add_new_server_conflict_or_add steady (cfg "B") w) Hnew).
    vm_compute. reflexivity.
Defined.

(** ** Initialisation from a list of configurations *)

Lemma register_keeps_flags D cfg w :
  configs (self (register_downstream_mcp_server D cfg w).2) = configs (self w)
  ∧ _initialized (self (register_downstream_mcp_server D cfg w).2)
    = _initialized (self w).
Proof.
  rewrite <-add_server_register, add_server_run. simpl.
  destruct (on_initialize D _ _) as [[]|e]; [|done].
  by destruct (on_list_tools D _ _) as [tools|e].
Qed.

Lemma register_all_keeps_flags D cfgs w :
  _initialized (self (for_each cfgs (register_downstream_mcp_server D) w).2)
  = _initialized (self w).
Proof.
  revert w. induction cfgs as [|cfg cfgs IH]; intros w; [done|].
  simpl. unfold mbind, M_bind.
  pose proof (register_keeps_flags D cfg w) as [_ Hini].
  destruct (register_downstream_mcp_server D cfg w) as [[[]|e] w1];
    simpl in *; [by rewrite IH|done].
Qed.


(** A registration that raises adds no pair and no tool, and takes no
    entry out of the server map: at most the entry under its own control
    name is replaced. *)
Lemma register_failure D cfg w e w' :
  register_downstream_mcp_server D cfg w = (Raise e, w') →
  _all_servers_tools (self w') = _all_servers_tools (self w) ∧
  _tools_map (self w') = _tools_map (self w) ∧
  dom (_servers_map (self w)) ⊆ dom (_servers_map (self w')) ∧
  (∀ k, k ≠ name cfg →
     _servers_map (self w') !! k = _servers_map (self w) !! k).
Proof.
  rewrite <-add_server_register, add_server_run. simpl.
  destruct (on_initialize D _ _) as [[]|e1].
  - destruct (on_list_tools D _ _) as [tools|e2]; [done|].
    intros [= -> <-]. simpl. split_and!; [done|done| |].
    + rewrite dom_insert_L. set_solver.
    + intros k Hk. by apply lookup_insert_ne.
  - intros [= -> <-]. done.
Qed.


(** What a run of registrations that all return has done. *)
Lemma register_all_state D cfgs : ∀ w w',
  for_each cfgs (register_downstream_mcp_server D) w = (Ok (), w') →
  config <$> (registrations D (AddServer <$> cfgs) w).*1 = cfgs ∧
  _all_servers_tools (self w') =
    _all_servers_tools (self w) ++ registrations D (AddServer <$> cfgs) w ∧
  _servers_map (self w') =
    map_servers (registrations D (AddServer <$> cfgs) w)
      (_servers_map (self w)) ∧
  _tools_map (self w') =
    index_all_tools (registrations D (AddServer <$> cfgs) w)
      (_tools_map (self w)).
Proof.
  induction cfgs as [|cfg cfgs IH]; intros w w'.
  - simpl. intros [= <-]. by rewrite app_nil_r.
  - simpl. unfold mbind, M_bind.
    change (register_downstream_mcp_server D cfg w) with (add_server D cfg w).
    destruct (add_server D cfg w) as [[[]|e] w1] eqn:Hadd; [|done].
    intros Hrest. destruct (IH _ _ Hrest) as (Hcfgs & Hlist & Hmap & Htools).
    destruct (add_server_returns D cfg w) as [tools Hans];
      [by rewrite Hadd|].
    rewrite Hans. rewrite (add_server_accepted _ _ _ _ _ Hans) in Hadd.
    injection Hadd as Hw1.
    change (registrations D (list_fmap _ _ AddServer cfgs) (Ok (), w1).2)
      with (registrations D (AddServer <$> cfgs) w1).
    split_and!.
    + rewrite !fmap_app, Hcfgs. done.
    + rewrite Hlist, <-Hw1. simpl. by rewrite <-app_assoc.
    + rewrite Hmap, <-Hw1. done.
    + rewrite Htools, <-Hw1. done.
Qed.

Lemma register_failure_exact D cfg w e w' :
  register_downstream_mcp_server D cfg w = (Raise e, w') →
  (self w' = self w ∧ trace w' = trace w ++ [EvInitialize (new_server w cfg)])
  ∨ (self w' = set_servers_map <[name cfg := new_server w cfg]> (self w) ∧
     trace w' = trace w ++ [EvInitialize (new_server w cfg);
                            EvListTools (new_server w cfg)]).
Proof.
  rewrite <-add_server_register, add_server_run. simpl.
  destruct (on_initialize D _ _) as [[]|e1].
  - destruct (on_list_tools D _ _) as [tools|e2]; [done|].
    intros [= -> <-]. right. simpl. by rewrite <-app_assoc.
  - intros [= -> <-]. by left.
Qed.

(** C5, as the code has it.  [initialize] registers the configurations one
    after the other in the order of [configs].  When all registrations
    return, one pair per configuration has been appended to
    [_all_servers_tools] in that order, each server has been written into
    [_servers_map] under its control name and each of its tools into
    [_tools_map], and the controller is marked initialised.  When the
    registrations of a prefix [pre] return and the next one raises,
    [initialize] raises that exception at once: the prefix is registered as
    just described, nothing is awaited for the configurations after the
    failing one, every pair stays listed, every tool stays indexed and every
    entry of [_servers_map] under another control name than the failing
    one's stays.  The entry under the failing configuration's own control
    name stays too when its [initialize] raised; when its [list_tools]
    raised it is replaced by the new server, which is not listed.  The
    initialised flag is not set. *)
Theorem initialize_in_order_without_rollback D w :
  (∀ w',
     for_each (configs (self w)) (register_downstream_mcp_server D) w
       = (Ok (), w') →
     initialize D w =
       (Ok (), {| self := set_initialized true (self w'); trace := trace w' |})
     ∧ config <$> (registrations D (AddServer <$> configs (self w)) w).*1
       = configs (self w)
     ∧ _all_servers_tools (self w') =
       _all_servers_tools (self w)
         ++ registrations D (AddServer <$> configs (self w)) w
     ∧ _servers_map (self w') =
       map_servers (registrations D (AddServer <$> configs (self w)) w)
         (_servers_map (self w))
     ∧ _tools_map (self w') =
       index_all_tools (registrations D (AddServer <$> configs (self w)) w)
         (_tools_map (self w))) ∧
  (∀ pre cfg post e w1 w2,
     configs (self w) = pre ++ cfg :: post →
     for_each pre (register_downstream_mcp_server D) w = (Ok (), w1) →
     register_downstream_mcp_server D cfg w1 = (Raise e, w2) →
     initialize D w = (Raise e, w2) ∧
     config <$> (registrations D (AddServer <$> pre) w).*1 = pre ∧
     _all_servers_tools (self w2) =
       _all_servers_tools (self w) ++ registrations D (AddServer <$> pre) w ∧
     _tools_map (self w2) =
       index_all_tools (registrations D (AddServer <$> pre) w)
         (_tools_map (self w)) ∧
     _servers_map (self w1) =
       map_servers (registrations D (AddServer <$> pre) w)
         (_servers_map (self w)) ∧
     ((_servers_map (self w2) = _servers_map (self w1) ∧
       trace w2 = trace w1 ++ [EvInitialize (new_server w1 cfg)]) ∨
      (_servers_map (self w2) =
         <[name cfg := new_server w1 cfg]> (_servers_map (self w1)) ∧
       trace w2 = trace w1 ++ [EvInitialize (new_server w1 cfg);
                               EvListTools (new_server w1 cfg)])) ∧
     (∀ k, k ≠ name cfg →
        _servers_map (self w2) !! k = _servers_map (self w1) !! k) ∧
     (name cfg ∉ dom (_servers_map (self w1)) →
      ∀ s, registered (self w1) s → registered (self w2) s) ∧
     _initialized (self w2) = _initialized (self w)).
Proof.
  split.
  - intros w' Hall.
    destruct (register_all_state D _ _ _ Hall) as (Hcfgs & Hlist & Hmap & Htools).
    split_and!; [|done|done|done|done].
    unfold initialize. unfold_M. by rewrite Hall.
  - intros pre cfg post e w1 w2 Hcfgs Hpre Hfail.
    destruct (register_all_state D _ _ _ Hpre) as (Hpres & Hlist & Hmap & Htools).
    destruct (register_failure _ _ _ _ _ Hfail)
      as (Hlist2 & Htools2 & _ & Hkept).
    split_and!; [|done| | |done| |done| |].
    + unfold initialize. unfold_M. rewrite Hcfgs, for_each_app, Hpre.
      simpl. unfold mbind, M_bind. by rewrite Hfail.
    + by rewrite Hlist2.
    + by rewrite Htools2.
    + destruct (register_failure_exact _ _ _ _ _ Hfail) as [[Hs Ht]|[Hs Ht]].
      * left. by rewrite Hs.
      * right. by rewrite Hs.
    + intros Hnew s (k & x & Hk & ->). exists k, s. split; [|done].
      rewrite Hkept; [done|]. intros ->. apply Hnew, elem_of_dom. eauto.
    + pose proof (register_keeps_flags D cfg w1) as [_ H2].
      pose proof (register_all_keeps_flags D pre w) as H1.
      rewrite Hfail in H2. rewrite Hpre in H1. simpl in *. congruence.
Qed.

Lemma initialize_in_order_without_rollback_witness :
  let w := new_world [cfg "A"; cfg "B"; cfg "C"] in
  let a := {| server_id := 1; config := cfg "A" |} in
  let w1 := run steady [AddServer (cfg "A")] w in
  let w2 := {| self := self w1;
               trace := trace w1 ++
                 [EvInitialize {| server_id := 2; config := cfg "B" |}] |} in
  configs (self w) = [cfg "A"] ++ cfg "B" :: [cfg "C"] ∧
  for_each [cfg "A"] (register_downstream_mcp_server unreachable_B) w
    = (Ok (), w1) ∧
  register_downstream_mcp_server unreachable_B (cfg "B") w1
    = (Raise ConnectionError, w2) ∧
  initialize unreachable_B w = (Raise ConnectionError, w2) ∧
  _all_servers_tools (self w2) = [(a, [tl "A" "t1"; tl "A" "t2"])] ∧
  _servers_map (self w2) = {["A" := a]} ∧
  _tools_map (self w2)
    = {["A-t1" := tl "A" "t1"; "A-t2" := tl "A" "t2"]}.
Proof.
  intros w a w1 w2.
  assert (configs (self w) = [cfg "A"] ++ cfg "B" :: [cfg "C"]) as Hcfgs
    by reflexivity.
  assert (for_each [cfg "A"] (register_downstream_mcp_server unreachable_B) w
          = (Ok (), w1)) as Hpre by (vm_compute; reflexivity).
  assert (register_downstream_mcp_server unreachable_B (cfg "B") w1
          = (Raise ConnectionError, w2)) as Hfail by (vm_compute; reflexivity).
  split; [exact Hcfgs|]. split; [exact Hpre|]. split; [exact Hfail|].
  destruct (proj2 (initialize_in_order_without_rollback unreachable_B w)
              [cfg "A"] (cfg "B") [cfg "C"] ConnectionError w1 w2
              Hcfgs Hpre Hfail)
    as (Hinit & _).
  split; [exact Hinit|]. split; [|split].
  - vm_compute. reflexivity.
  - by_compute.
  - by_compute.
Defined.

(** C5 as the spec states it fails: with two configurations under the same
    control name, the first is registered, the [list_tools] of the second
    raises after the second server was written into the server map, and
    the first server, though still listed with its tools indexed, is no
    longer registered. *)
Lemma initialize_failure_replaces_registered_server :
  let w := new_world [cfg "A"; cfg "A"] in
  let a1 := {| server_id := 1; config := cfg "A" |} in
  let a2 := {| server_id := 2; config := cfg "A" |} in
  let w1 := (register_downstream_mcp_server only_first_lists (cfg "A") w).2 in
  let w2 := (initialize only_first_lists w).2 in
  (register_downstream_mcp_server only_first_lists (cfg "A") w).1 = Ok () ∧
  registered (self w1) a1 ∧
  (register_downstream_mcp_server only_first_lists (cfg "A") w1).1
    = Raise ConnectionError ∧
  (initialize only_first_lists w).1 = Raise ConnectionError ∧
  ¬ registered (self w2) a1 ∧
  get_server_by_control_name "A" w2 = (Ok a2, w2) ∧
  _all_servers_tools (self w2) = [(a1, [tl "A" "t1"; tl "A" "t2"])].
Proof.
  intros w a1 a2 w1 w2.
  split_and!; try (vm_compute; reflexivity); by_compute.
Qed.

(** ** Shutting the registry down *)

Lemma for_each_shutdown_ok D (l : servers_tools) w :
  shutdowns_succeed D (trace w) l.*1 = true →
  for_each l (λ '(server, _), server_shutdown D server) w =
  (Ok (), {| self := self w; trace := trace w ++ (EvShutdown <$> l.*1) |}).
Proof.
  revert w. induction l as [|[s ts] l IH]; intros [c tr]; simpl.
  - intros _. by rewrite app_nil_r.
  - intros [Hs Hrest]%andb_true_iff. apply bool_decide_eq_true in Hs.
    unfold_M. rewrite Hs. rewrite IH by done. simpl.
    by rewrite <-app_assoc.
Qed.

Lemma for_each_shutdown_fails D (pre post : servers_tools) s ts e w :
  shutdowns_succeed D (trace w) pre.*1 = true →
  on_shutdown D (trace w ++ (EvShutdown <$> pre.*1)) s = Raise e →
  for_each (pre ++ (s, ts) :: post)
    (λ '(server, _), server_shutdown D server) w =
  (Raise e, {| self := self w;
               trace := trace w ++ (EvShutdown <$> pre.*1) ++ [EvShutdown s] |}).
Proof.
  intros Hpre Hs. rewrite for_each_app, for_each_shutdown_ok by done.
  simpl. unfold_M. rewrite Hs. by rewrite <-app_assoc.
Qed.

(** C3, as the code has it.  When the shutdown of every listed connection
    returns, [shutdown] awaits them in list order and then closes the exit
    stack exactly once, and its outcome is the outcome of that close.  When
    the shutdown of a connection raises, [shutdown] raises the same
    exception at once: the connections listed after it are not shut down
    and the exit stack is not closed. *)
Theorem shutdown_closes_after_successful_shutdowns D w :
  let servers := (_all_servers_tools (self w)).*1 in
  (shutdowns_succeed D (trace w) servers = true →
   releases_everything_once D w ∧
   shutdown D w =
     (on_aclose D (trace w ++ (EvShutdown <$> servers)),
      {| self := self w;
         trace := trace w ++ (EvShutdown <$> servers) ++ [EvAclose] |})) ∧
  (∀ pre s ts post e,
     _all_servers_tools (self w) = pre ++ (s, ts) :: post →
     shutdowns_succeed D (trace w) pre.*1 = true →
     on_shutdown D (trace w ++ (EvShutdown <$> pre.*1)) s = Raise e →
     shutdown D w =
       (Raise e,
        {| self := self w;
           trace := trace w ++ (EvShutdown <$> pre.*1) ++ [EvShutdown s] |})
     ∧ awaited (shutdown D) w = (EvShutdown <$> pre.*1) ++ [EvShutdown s]
     ∧ EvAclose ∉ awaited (shutdown D) w).
Proof.
  intros servers. split.
  - intros Hok.
    assert (shutdown D w =
      (on_aclose D (trace w ++ (EvShutdown <$> servers)),
       {| self := self w;
          trace := trace w ++ (EvShutdown <$> servers) ++ [EvAclose] |}))
      as Hrun.
    { unfold shutdown, with_asyncio_lock, get_self, mbind, M_bind.
      rewrite for_each_shutdown_ok by done.
      unfold exit_stack_aclose, await. simpl. by rewrite <-app_assoc. }
    split; [|done]. unfold releases_everything_once, awaited.
    rewrite Hrun. simpl. by rewrite drop_app_length.
  - intros pre s ts post e Hlist Hpre Hs.
    assert (shutdown D w =
      (Raise e,
       {| self := self w;
          trace := trace w ++ (EvShutdown <$> pre.*1) ++ [EvShutdown s] |}))
      as Hrun.
    { unfold shutdown, with_asyncio_lock, get_self, mbind, M_bind.
      rewrite Hlist.
      by rewrite (for_each_shutdown_fails D pre post s ts e w). }
    assert (awaited (shutdown D) w = (EvShutdown <$> pre.*1) ++ [EvShutdown s])
      as Hawaited.
    { unfold awaited. rewrite Hrun. simpl. by rewrite drop_app_length. }
    split_and!; [done|done|]. rewrite Hawaited.
    intros [Hin|Hin]%elem_of_app.
    + by apply list_elem_of_fmap in Hin as (? & ? & _).
    + by apply list_elem_of_singleton in Hin.
Qed.

Lemma shutdown_closes_after_successful_shutdowns_witness :
  let w := run steady [AddServer (cfg "A"); AddServer (cfg "B")]
             (new_world []) in
  let a := {| server_id := 1; config := cfg "A" |} in
  let b := {| server_id := 2; config := cfg "B" |} in
  shutdowns_succeed steady (trace w) (_all_servers_tools (self w)).*1 = true ∧
  releases_everything_once steady w ∧
  awaited (shutdown steady) w = [EvShutdown a; EvShutdown b; EvAclose].
Proof.
  intros w a b.
  assert (shutdowns_succeed steady (trace w) (_all_servers_tools (self w)).*1
          = true) as Hok by (vm_compute; reflexivity).
  split; [exact Hok|].
  destruct (proj1 (shutdown_closes_after_successful_shutdowns steady w) Hok)
    as [Hrel Hrun].
  split; [exact Hrel|]. rewrite Hrel. vm_compute. reflexivity.
Defined.

(** C3 as the spec states it fails: the shutdown of the first connection
    raises, the second connection is never shut down and the exit stack is
    never closed. *)
Lemma shutdown_failure_skips_aclose :
  let w := run failing_shutdown [AddServer (cfg "A"); AddServer (cfg "B")]
             (new_world []) in
  let a := {| server_id := 1; config := cfg "A" |} in
  let b := {| server_id := 2; config := cfg "B" |} in
  (_all_servers_tools (self w)).*1 = [a; b] ∧
  (shutdown failing_shutdown w).1 = Raise ConnectionError ∧
  awaited (shutdown failing_shutdown) w = [EvShutdown a] ∧
  (EvShutdown b ∉ trace (shutdown failing_shutdown w).2) ∧
  (EvAclose ∉ trace (shutdown failing_shutdown w).2) ∧
  ¬ releases_everything_once failing_shutdown w.
Proof.
  intros w a b. split_and!; try (vm_compute; reflexivity); by_compute.
Qed.

(** ** Which tool list a removal purges *)

Lemma remove_server_as_specified_run D n w server :
  _servers_map (self w) !! n = Some server →
  on_shutdown D (trace w) server = Ok () →
  remove_server_as_specified D n w =
  (Ok (), {| self := without_server n server
                       (captured_tools (self w) server) (self w);
             trace := trace w ++ [EvShutdown server] |}).
Proof.
  intros Hn Hs. unfold remove_server_as_specified. unfold_M.
  rewrite bool_decide_eq_false_2.
  2:{ intros Hnot. apply Hnot, elem_of_dom. eauto. }
  simpl. rewrite Hn. simpl. rewrite Hs.
  rewrite for_each_purge_tools. reflexivity.
Qed.

(** C2, as the code has it.  For a registered server, [remove_server]
    takes it out of the server map, awaits its shutdown, drops its pairs
    from the ordered list, and only then awaits [list_tools] on the
    connection it has just shut down; the control names that this query
    returns are the ones deleted from the tool index, the captured list is
    not consulted.  If the query raises, the call raises with the tool
    index unpurged.  If the query returns tools with the same control names
    as the captured list, the controller ends as the capture-based removal
    of the spec leaves it. *)
Theorem remove_server_purges_requeried_tools D n w server :
  _servers_map (self w) !! n = Some server →
  on_shutdown D (trace w) server = Ok () →
  awaited (remove_server D n) w = [EvShutdown server; EvListTools server] ∧
  (∀ tools,
     on_list_tools D (trace w ++ [EvShutdown server]) server = Ok tools →
     remove_server D n w =
       (Ok (), {| self := without_server n server tools (self w);
                  trace := trace w ++ [EvShutdown server; EvListTools server] |})
     ∧ _tools_map (self (remove_server D n w).2) =
       purge_tools tools (_tools_map (self w))
     ∧ (tool_names tools = tool_names (captured_tools (self w) server) →
        self (remove_server D n w).2 =
        self (remove_server_as_specified D n w).2)) ∧
  (∀ e,
     on_list_tools D (trace w ++ [EvShutdown server]) server = Raise e →
     (remove_server D n w).1 = Raise e ∧
     _tools_map (self (remove_server D n w).2) = _tools_map (self w)).
Proof.
  intros Hn Hs. split_and!.
  - unfold awaited. rewrite remove_server_run, Hn. simpl. rewrite Hs.
    destruct (on_list_tools D _ _) as [tools|e]; simpl;
      by rewrite <-app_assoc, drop_app_length.
  - intros tools Hl.
    rewrite (remove_server_as_specified_run D n w server) by done.
    rewrite remove_server_run, Hn. simpl. rewrite Hs, Hl. simpl.
    split_and!; [by rewrite <-app_assoc|done|].
    intros Hnames. unfold without_server, set_tools_map. simpl.
    by rewrite (purge_tools_same_names _ tools _ Hnames).
  - intros e Hl. rewrite remove_server_run, Hn. simpl. by rewrite Hs, Hl.
Qed.

Lemma remove_server_purges_requeried_tools_witness :
  let w := run steady [AddServer (cfg "A"); AddServer (cfg "B")]
             (new_world []) in
  let a := {| server_id := 1; config := cfg "A" |} in
  _servers_map (self w) !! "A" = Some a ∧
  on_shutdown empty_after_shutdown (trace w) a = Ok () ∧
  awaited (remove_server empty_after_shutdown "A") w
    = [EvShutdown a; EvListTools a] ∧
  _tools_map (self (remove_server empty_after_shutdown "A" w).2)
    = _tools_map (self w).
Proof.
  intros w a.
  assert (_servers_map (self w) !! "A" = Some a) as Hn
    by (vm_compute; reflexivity).
  assert (on_shutdown empty_after_shutdown (trace w) a = Ok ()) as Hs
    by reflexivity.
  split; [exact Hn|]. split; [exact Hs|].
  destruct (remove_server_purges_requeried_tools empty_after_shutdown
              "A" w a Hn Hs) as (Hawaited & Hok & _).
  split; [exact Hawaited|].
  destruct (Hok [] ltac:(vm_compute; reflexivity)) as (_ & Htools & _).
  exact Htools.
Defined.

(** C2 as the spec states it fails: the removal awaits [list_tools] after
    the shutdown, and when the connection then reports no tools, the tools
    captured at add time stay in the index, which the capture-based removal
    would have purged. *)
Lemma remove_server_requeries_after_shutdown :
  let w := run empty_after_shutdown [AddServer (cfg "A")] (new_world []) in
  let a := {| server_id := 1; config := cfg "A" |} in
  captured_tools (self w) a = [tl "A" "t1"; tl "A" "t2"] ∧
  awaited (remove_server empty_after_shutdown "A") w
    = [EvShutdown a; EvListTools a] ∧
  (remove_server empty_after_shutdown "A" w).1 = Ok () ∧
  _tools_map (self (remove_server empty_after_shutdown "A" w).2) !! "A-t1"
    = Some (tl "A" "t1") ∧
  _tools_map (self (remove_server_as_specified empty_after_shutdown "A" w).2)
    = ∅ ∧
  self (remove_server empty_after_shutdown "A" w).2 ≠
  self (remove_server_as_specified empty_after_shutdown "A" w).2.
Proof.
  intros w a. split_and!; try (vm_compute; reflexivity); by_compute.
Qed.

(** ** Adding a server and removing it at once *)

Lemma filter_keeps_all {A} (P : A → Prop) `{∀ x, Decision (P x)} (l : list A) :
  (∀ x, x ∈ l → P x) → filter P l = l.
Proof.
  induction l as [|x l IH]; intros Hall; [done|].
  rewrite filter_cons_True by (apply Hall; left).
  f_equal. apply IH. intros y Hy. apply Hall. by right.
Qed.

Lemma filter_drops_new_server w cfg tools :
  filter (λ st, server_ne st.1 (new_server w cfg) = true)
    (_all_servers_tools (self w) ++ [(new_server w cfg, tools)])
  = _all_servers_tools (self w).
Proof.
  rewrite filter_app, filter_cons_False, filter_nil, app_nil_r.
  - apply filter_keeps_all. intros [s ts] Hin.
    apply server_ne_true.
    assert (s ∈ (_all_servers_tools (self w)).*1) as Hs.
    { exact (list_elem_of_fmap_2 fst _ _ Hin). }
    pose proof (new_server_above_listed w cfg s Hs). simpl in *. lia.
  - simpl. intros Hne%server_ne_true. done.
Qed.

Lemma without_with_server w cfg tools tools' :
  name cfg ∉ dom (_servers_map (self w)) →
  (∀ t, t ∈ tools → control_name t ∉ dom (_tools_map (self w))) →
  tool_names tools' = tool_names tools →
  without_server (get_control_name (new_server w cfg)) (new_server w cfg)
    tools' (with_server (new_server w cfg) tools (self w)) = self w.
Proof.
  intros Hname Htools Hnames.
  pose proof (filter_drops_new_server w cfg tools) as Hfilter.
  destruct (self w) as [l sm tm cf ini].
  unfold without_server, with_server, set_tools_map, set_all_servers_tools,
    set_servers_map. simpl in *. f_equal.
  - exact Hfilter.
  - unfold get_control_name. simpl. rewrite delete_insert_eq.
    apply delete_id. by apply not_elem_of_dom.
  - rewrite (purge_tools_same_names tools tools' _ Hnames).
    by apply purge_index_tools.
Qed.

(** C4, as the code has it.  From any controller in which the new control
    name is no key of the server map and no control name of the new tools
    is a key of the tool index, an [add_server] that the downstream accepts
    followed by the [remove_server] of the same control name gives back
    exactly the controller it started from, provided the shutdown returns
    and the [list_tools] awaited by the removal returns tools with the
    control names captured by the addition. *)
Theorem add_then_remove_restores D cfg w server tools tools' :
  name cfg ∉ dom (_servers_map (self w)) →
  (∀ t, t ∈ tools → control_name t ∉ dom (_tools_map (self w))) →
  add_answer D w cfg = Some (server, tools) →
  let h := trace w ++ [EvInitialize server; EvListTools server] in
  on_shutdown D h server = Ok () →
  on_list_tools D (h ++ [EvShutdown server]) server = Ok tools' →
  tool_names tools' = tool_names tools →
  (add_server D cfg ;; remove_server D (name cfg)) w =
  (Ok (), {| self := self w;
             trace := h ++ [EvShutdown server; EvListTools server] |}).
Proof.
  intros Hname Htools Hans h Hs Hl Hnames.
  unfold mbind, M_bind. rewrite (add_server_accepted _ _ _ _ _ Hans).
  apply add_answer_Some in Hans as (-> & _ & _).
  rewrite remove_server_run. simpl.
  change (name cfg) with (get_control_name (new_server w cfg)).
  rewrite lookup_insert_eq. fold h. rewrite Hs, Hl.
  rewrite without_with_server by done. by rewrite <-app_assoc.
Qed.

Lemma add_then_remove_restores_witness :
  let w := run steady [AddServer (cfg "B")] (new_world []) in
  let a := {| server_id := 2; config := cfg "A" |} in
  let tools := [tl "A" "t1"; tl "A" "t2"] in
  (name (cfg "A") ∉ dom (_servers_map (self w))) ∧
  (∀ t, t ∈ tools → control_name t ∉ dom (_tools_map (self w))) ∧
  add_answer steady w (cfg "A") = Some (a, tools) ∧
  self ((add_server steady (cfg "A") ;; remove_server steady "A") w).2
    = self w.
Proof.
  intros w a tools.
  assert (name (cfg "A") ∉ dom (_servers_map (self w))) as Hname
    by by_compute.
  assert (∀ t, t ∈ tools → control_name t ∉ dom (_tools_map (self w)))
    as Htools.
  { apply Forall_forall. repeat constructor; by_compute. }
  assert (add_answer steady w (cfg "A") = Some (a, tools)) as Hans
    by (vm_compute; reflexivity).
  split; [exact Hname|]. split; [exact Htools|]. split; [exact Hans|].
  exact (f_equal (λ r, self r.2)
           (add_then_remove_restores steady (cfg "A") w a tools tools
              Hname Htools Hans eq_refl eq_refl eq_refl)).
Defined.

(** C4 as the spec states it fails: every call returns and no key
    collides, but the connection that was shut down reports no tools, so
    the tools of the added server stay in the index. *)
Lemma add_then_remove_leaves_tools :
  let w := new_world [] in
  let w2 := (add_server empty_after_shutdown (cfg "A") ;;
             remove_server empty_after_shutdown "A") w in
  (name (cfg "A") ∉ dom (_servers_map (self w))) ∧
  dom (_tools_map (self w)) = ∅ ∧
  w2.1 = Ok () ∧
  _servers_map (self w2.2) = _servers_map (self w) ∧
  _all_servers_tools (self w2.2) = _all_servers_tools (self w) ∧
  _tools_map (self w2.2) !! "A-t1" = Some (tl "A" "t1") ∧
  self w2.2 ≠ self w.
Proof.
  intros w w2. split_and!; try (vm_compute; reflexivity); by_compute.
Qed.

(** ** Lists of pairs under [filter] *)

Lemma filter_agree {A} (P Q : A → Prop)
    `{∀ x, Decision (P x)} `{∀ x, Decision (Q x)} (l : list A) :
  (∀ x, x ∈ l → P x ↔ Q x) → filter P l = filter Q l.
Proof.
  induction l as [|x l IH]; intros Hiff; [done|].
  assert (filter P l = filter Q l) as Htl.
  { apply IH. intros y Hy. apply Hiff. by right. }
  destruct (decide (P x)) as [HP|HP].
  - rewrite !filter_cons_True; [by f_equal| |done]. apply Hiff; [left|done].
  - rewrite !filter_cons_False; [done| |done].
    intros HQ. apply HP, Hiff; [left|done].
Qed.

Lemma NoDup_fmap_filter {A B} (f : A → B) (P : A → Prop)
    `{∀ x, Decision (P x)} (l : list A) :
  NoDup (f <$> l) → NoDup (f <$> filter P l).
Proof.
  induction l as [|x l IH]; [done|]. rewrite fmap_cons, NoDup_cons.
  intros [Hx Hl]. destruct (decide (P x)).
  - rewrite filter_cons_True, fmap_cons by done. apply NoDup_cons.
    split; [|by apply IH].
    intros (y & Hfy & Hy%list_elem_of_filter)%list_elem_of_fmap.
    apply Hx, list_elem_of_fmap. exists y. split; [done|apply Hy].
  - rewrite filter_cons_False by done. by apply IH.
Qed.

Lemma NoDup_fmap_eq {A B} (f : A → B) (l : list A) x y :
  NoDup (f <$> l) → x ∈ l → y ∈ l → f x = f y → x = y.
Proof.
  induction l as [|z l IH]; intros Hnd Hx Hy Hf; [by apply elem_of_nil in Hx|].
  rewrite fmap_cons in Hnd. apply NoDup_cons in Hnd as [Hz Hl].
  apply elem_of_cons in Hx as [->|Hx]; apply elem_of_cons in Hy as [->|Hy].
  - done.
  - exfalso. apply Hz. rewrite Hf. by apply list_elem_of_fmap_2.
  - exfalso. apply Hz. rewrite <-Hf. by apply list_elem_of_fmap_2.
  - by apply IH.
Qed.

Lemma all_tools_cons (st : DownstreamMCPServer * list DownstreamMCPServerTool)
    (l : servers_tools) :
  all_tools (st :: l) = st.2 ++ all_tools l.
Proof. reflexivity. Qed.

Lemma all_tools_app (l1 l2 : servers_tools) :
  all_tools (l1 ++ l2) = all_tools l1 ++ all_tools l2.
Proof. unfold all_tools. by rewrite fmap_app, join_app. Qed.

Lemma tool_names_app tools1 tools2 :
  tool_names (tools1 ++ tools2) = tool_names tools1 ∪ tool_names tools2.
Proof. unfold tool_names. by rewrite fmap_app, list_to_set_app_L. Qed.

Lemma elem_of_tool_names k tools :
  k ∈ tool_names tools ↔ k ∈ control_name <$> tools.
Proof. unfold tool_names. apply elem_of_list_to_set. Qed.

(** With distinct control names throughout, the names of a filtered list
    are those of the whole list without those of the pairs filtered out. *)
Lemma tool_names_filter (f : DownstreamMCPServer *
                              list DownstreamMCPServerTool → bool)
    (l : servers_tools) :
  NoDup (control_name <$> all_tools l) →
  tool_names (all_tools (filter (λ st, f st = true) l)) =
  tool_names (all_tools l)
    ∖ tool_names (all_tools (filter (λ st, f st = false) l)).
Proof.
  induction l as [|st l IH]; [done|].
  rewrite all_tools_cons, fmap_app. intros (_ & Hdisj & Hl)%NoDup_app.
  specialize (IH Hl).
  assert (tool_names st.2 ## tool_names (all_tools l)) as Hdisjoint.
  { intros k H1%elem_of_tool_names H2%elem_of_tool_names. by eapply Hdisj. }
  assert (tool_names (all_tools (filter (λ st, f st = false) l))
          ⊆ tool_names (all_tools l)) as Hsub.
  { intros k (t & -> & Ht)%elem_of_tool_names%list_elem_of_fmap.
    apply elem_of_tool_names, list_elem_of_fmap_2.
    unfold all_tools in *. apply list_elem_of_join in Ht as (ts & Hts & Hin).
    apply list_elem_of_join. exists ts. split; [done|].
    apply list_elem_of_fmap in Hin as (st' & -> & Hst'%list_elem_of_filter).
    apply list_elem_of_fmap_2, Hst'. }
  destruct (f st) eqn:Hf.
  - rewrite filter_cons_True, filter_cons_False by congruence.
    rewrite !all_tools_cons, !tool_names_app, IH. set_solver.
  - rewrite filter_cons_False, filter_cons_True by congruence.
    rewrite !all_tools_cons, !tool_names_app, IH. set_solver.
Qed.

Lemma NoDup_all_tools_filter (P : DownstreamMCPServer *
                                  list DownstreamMCPServerTool → Prop)
    `{∀ st, Decision (P st)} (l : servers_tools) :
  NoDup (control_name <$> all_tools l) →
  NoDup (control_name <$> all_tools (filter P l)).
Proof.
  induction l as [|st l IH]; [done|].
  rewrite all_tools_cons, fmap_app. intros (Hst & Hdisj & Hl)%NoDup_app.
  destruct (decide (P st)).
  - rewrite filter_cons_True, all_tools_cons, fmap_app by done.
    apply NoDup_app. split_and!; [done| |by apply IH].
    intros k Hk (t & -> & Ht)%list_elem_of_fmap. apply (Hdisj _ Hk).
    apply list_elem_of_fmap_2.
    unfold all_tools in *. apply list_elem_of_join in Ht as (ts & Hts & Hin).
    apply list_elem_of_join. exists ts. split; [done|].
    apply list_elem_of_fmap in Hin as (st' & -> & Hst'%list_elem_of_filter).
    apply list_elem_of_fmap_2, Hst'.
  - rewrite filter_cons_False by done. by apply IH.
Qed.

(** ** The invariant under [add_server] and [remove_server] *)

Lemma consistent_servers_init cfgs : consistent_servers (__init__ cfgs).
Proof.
  split; simpl.
  - intros k s Hk. by rewrite lookup_empty in Hk.
  - intros s Hs. by apply elem_of_nil in Hs.
  - constructor.
Qed.

Lemma registered_listed c s :
  consistent_servers c → registered c s ↔ s ∈ (_all_servers_tools c).*1.
Proof.
  intros Hc. split.
  - intros (k & x & Hk & ->). by apply (mapped_is_listed c Hc k).
  - intros Hs. exists (get_control_name s), s.
    split; [by apply listed_is_mapped|done].
Qed.

Lemma consistent_with_server c server tools :
  consistent_servers c →
  get_control_name server ∉ dom (_servers_map c) →
  (∀ s, s ∈ (_all_servers_tools c).*1 → server_id s < server_id server) →
  consistent_servers (with_server server tools c).
Proof.
  intros Hc Hname%not_elem_of_dom Habove. split; simpl.
  - intros k s [[<- <-]|[Hne Hk]]%lookup_insert_Some.
    + split; [done|]. rewrite fmap_app. apply elem_of_app. right. left.
    + destruct (mapped_is_listed c Hc k s Hk) as [Hks Hin].
      split; [done|]. rewrite fmap_app. apply elem_of_app. by left.
  - rewrite fmap_app. intros s [Hs|Hs%list_elem_of_singleton]%elem_of_app.
    + pose proof (listed_is_mapped c Hc s Hs) as Hmap.
      rewrite lookup_insert_ne; [done|]. intros Heq.
      rewrite <-Heq in Hmap. congruence.
    + subst s. apply lookup_insert_eq.
  - rewrite !fmap_app. apply NoDup_app. split_and!.
    + apply (listed_once c Hc).
    + intros i (s & -> & Hs)%list_elem_of_fmap Hi%list_elem_of_singleton.
      pose proof (Habove s Hs). simpl in *. lia.
    + apply NoDup_singleton.
Qed.

(** Listed objects are told apart by their identity. *)
Lemma listed_same_id c s x :
  consistent_servers c →
  s ∈ (_all_servers_tools c).*1 → x ∈ (_all_servers_tools c).*1 →
  server_id x = server_id s → x = s.
Proof.
  intros Hc Hs Hx Hid.
  by apply (NoDup_fmap_eq server_id (_all_servers_tools c).*1 x s
              (listed_once c Hc)).
Qed.

Lemma consistent_without_server c n server tools :
  consistent_servers c →
  _servers_map c !! n = Some server →
  consistent_servers (without_server n server tools c).
Proof.
  intros Hc Hn.
  destruct (mapped_is_listed c Hc n server Hn) as [Hname Hlisted].
  split; simpl.
  - intros k s [Hne Hk]%lookup_delete_Some.
    destruct (mapped_is_listed c Hc k s Hk) as [Hks Hin].
    split; [done|].
    apply list_elem_of_fmap in Hin as ([s' ts] & -> & Hin).
    apply (list_elem_of_fmap_2 fst), list_elem_of_filter.
    split; [|done]. simpl. apply server_ne_true. intros Hid.
    apply Hne. rewrite <-Hname, <-Hks. f_equal. symmetry.
    apply (listed_same_id c); [done|done| |done].
    exact (list_elem_of_fmap_2 fst _ _ Hin).
  - intros s ([s' ts] & -> & [Hne Hin]%list_elem_of_filter)%list_elem_of_fmap.
    simpl in *. apply server_ne_true in Hne.
    assert (s' ∈ (_all_servers_tools c).*1) as Hs'
      by exact (list_elem_of_fmap_2 fst _ _ Hin).
    pose proof (listed_is_mapped c Hc s' Hs') as Hmap.
    rewrite lookup_delete_ne; [done|]. intros Heq.
    rewrite <-Heq, Hn in Hmap. injection Hmap as ->. done.
  - rewrite <-list_fmap_compose. apply NoDup_fmap_filter.
    rewrite list_fmap_compose. apply (listed_once c Hc).
Qed.

Lemma registered_with_server c server tools s :
  get_control_name server ∉ dom (_servers_map c) →
  registered (with_server server tools c) s ↔
  s = server ∨ registered c s.
Proof.
  intros Hname%not_elem_of_dom. unfold registered. simpl.
  rewrite map_Exists_insert by done. naive_solver.
Qed.

Lemma registered_without_server c n server tools s :
  consistent_servers c →
  _servers_map c !! n = Some server →
  registered (without_server n server tools c) s ↔
  server_ne s server = true ∧ registered c s.
Proof.
  intros Hc Hn.
  destruct (mapped_is_listed c Hc n server Hn) as [Hname Hlisted].
  unfold registered. simpl. split.
  - intros (k & x & [Hne Hk]%lookup_delete_Some & ->).
    split; [|by exists k, s].
    destruct (mapped_is_listed c Hc k s Hk) as [Hks Hin].
    apply server_ne_true. intros Hid. apply Hne.
    rewrite <-Hname, <-Hks. f_equal. symmetry.
    by apply (listed_same_id c).
  - intros [Hne%server_ne_true (k & x & Hk & ->)].
    exists k, s. split; [|done]. apply lookup_delete_Some. split; [|done].
    intros <-. rewrite Hn in Hk. by injection Hk as ->.
Qed.

(** The history restricted to the registered servers, after the addition
    of an object that the history does not hold under a control name that
    is not registered, and after a removal. *)
Lemma lists_registered_with_server H c server tools :
  lists_registered_of H c →
  (∀ st, st ∈ H → server_id st.1 < server_id server) →
  get_control_name server ∉ dom (_servers_map c) →
  lists_registered_of (H ++ [(server, tools)]) (with_server server tools c).
Proof.
  intros Hlist Habove Hname. unfold lists_registered_of in *. simpl.
  rewrite filter_app, filter_cons_True, filter_nil.
  2:{ simpl. apply registered_with_server; [done|by left]. }
  f_equal. rewrite Hlist. apply filter_agree. intros [s ts] Hin. simpl.
  rewrite registered_with_server by done. split; [by right|].
  intros [->|?]; [|done]. pose proof (Habove _ Hin). simpl in *. lia.
Qed.

Lemma lists_registered_without_server H c n server tools :
  consistent_servers c →
  lists_registered_of H c →
  _servers_map c !! n = Some server →
  lists_registered_of H (without_server n server tools c).
Proof.
  intros Hc Hlist Hn. unfold lists_registered_of in *. simpl.
  rewrite Hlist, list_filter_filter. apply filter_agree.
  intros [s ts] Hin. simpl. symmetry.
  by apply (registered_without_server c n server tools s).
Qed.

(** ** One call, then a whole run *)

Lemma tools_listed_consistent c :
  consistent_servers c → tools_listed c → tool_index_consistent c.
Proof.
  intros Hc Htools. unfold tool_index_consistent, registered_tool_names.
  rewrite filter_keeps_all; [done|]. intros [s ts] Hin.
  apply registered_listed; [done|].
  exact (list_elem_of_fmap_2 fst _ _ Hin).
Qed.

(** A call only appends to the trace. *)
Lemma perform_trace D c w :
  ∃ events, trace (perform D c w).2 = trace w ++ events.
Proof.
  destruct c as [cfg|n]; simpl.
  - rewrite add_server_run. simpl.
    destruct (on_initialize D _ _) as [[]|e];
      [destruct (on_list_tools D _ _) as [tools|e]|]; simpl;
      rewrite <-?app_assoc; eauto.
  - rewrite remove_server_run.
    destruct (_servers_map (self w) !! n) as [server|]; simpl.
    + destruct (on_shutdown D _ _) as [[]|e];
        [destruct (on_list_tools D _ _) as [tools|e]|]; simpl;
        rewrite <-?app_assoc; eauto.
    + exists []. by rewrite app_nil_r.
Qed.

Lemma awaited_after_call D c w s :
  s ∈ omap event_server (trace w) →
  s ∈ omap event_server (trace (perform D c w).2).
Proof.
  destruct (perform_trace D c w) as [events ->].
  rewrite omap_app, elem_of_app. auto.
Qed.

Lemma perform_step D c w H :
  consistent_servers (self w) →
  lists_registered_of H (self w) →
  history_awaited H w →
  (∀ cfg, c = AddServer cfg → name cfg ∉ dom (_servers_map (self w))) →
  (perform D c w).1 = Ok () →
  consistent_servers (self (perform D c w).2) ∧
  lists_registered_of (H ++ registration D c w) (self (perform D c w).2) ∧
  history_awaited (H ++ registration D c w) (perform D c w).2 ∧
  (tools_listed (self w) →
   NoDup (control_name <$> all_tools (H ++ registration D c w)) →
   (∀ n, c = RemoveServer n → requery_as_captured D w n = true) →
   tools_listed (self (perform D c w).2)).
Proof.
  intros Hc Hlist Hawaited Hfresh Hok.
  assert (history_awaited H (perform D c w).2) as Hold.
  { intros st Hst. by apply awaited_after_call, Hawaited. }
  destruct c as [cfg|n]; simpl in *.
  - specialize (Hfresh cfg eq_refl).
    destruct (add_server_returns D cfg w Hok) as [tools Hans].
    rewrite Hans. rewrite (add_server_accepted _ _ _ _ _ Hans) in *. simpl in *.
    split_and!.
    + apply consistent_with_server; [done|done|].
      intros s Hs. by apply new_server_above_listed.
    + apply lists_registered_with_server; [done| |done].
      intros st Hst. by apply new_server_above_awaited, Hawaited.
    + intros st [Hst|Hst%list_elem_of_singleton]%elem_of_app;
        [by apply Hold|].
      subst st. simpl. rewrite omap_app, elem_of_app. right. simpl. left.
    + intros Htools _ _. unfold tools_listed in *. simpl.
      rewrite dom_index_tools, Htools, all_tools_app, tool_names_app.
      by rewrite all_tools_cons, app_nil_r.
  - rewrite app_nil_r. split_and!; [| |done|]; revert Hok;
      rewrite remove_server_run;
      destruct (_servers_map (self w) !! n) as [server|] eqn:Hn; simpl;
      try done;
      (destruct (on_shutdown D _ _) as [[]|e]; [|done]);
      (destruct (on_list_tools D _ _) as [tools|e] eqn:Hl; [|done]); simpl;
      intros _.
    + by apply consistent_without_server.
    + by apply lists_registered_without_server.
    + intros Htools Hnodup Hrequery.
      specialize (Hrequery n eq_refl). unfold requery_as_captured in Hrequery.
      rewrite Hn, Hl in Hrequery. apply bool_decide_eq_true in Hrequery.
      unfold tools_listed in *. simpl.
      rewrite dom_purge_tools, Htools, Hrequery.
      unfold captured_tools. symmetry.
      apply (tool_names_filter (λ st, server_ne st.1 server)).
      rewrite Hlist. by apply NoDup_all_tools_filter.
Qed.

Lemma run_invariant D cs : ∀ w H,
  consistent_servers (self w) →
  lists_registered_of H (self w) →
  history_awaited H w →
  adds_unregistered D cs w = true →
  succeeds D cs w = true →
  ∀ k,
    consistent_servers (self (run D (take k cs) w)) ∧
    lists_registered_of (H ++ registrations D (take k cs) w)
      (self (run D (take k cs) w)) ∧
    (tools_listed (self w) →
     NoDup (control_name <$> all_tools (H ++ registrations D cs w)) →
     requeries_as_captured D cs w = true →
     tools_listed (self (run D (take k cs) w))).
Proof.
  induction cs as [|c cs IH]; intros w H Hc Hlist Hawaited Hadds Hsucc k.
  - rewrite take_nil. simpl. rewrite app_nil_r. done.
  - destruct k as [|k]; [simpl; rewrite app_nil_r; done|].
    simpl in Hsucc. apply andb_true_iff in Hsucc as [Hok Hsucc].
    apply bool_decide_eq_true in Hok.
    simpl in Hadds. apply andb_true_iff in Hadds as [Hadd Hadds].
    assert (∀ cfg, c = AddServer cfg →
                   name cfg ∉ dom (_servers_map (self w))) as Hfresh.
    { intros cfg ->. by apply bool_decide_eq_true in Hadd. }
    destruct (perform_step D c w H Hc Hlist Hawaited Hfresh Hok)
      as (Hc1 & Hlist1 & Hawaited1 & Htools1).
    destruct (IH _ _ Hc1 Hlist1 Hawaited1 Hadds Hsucc k)
      as (Hck & Hlistk & Htoolsk).
    simpl. rewrite app_assoc. split_and!; [done|done|].
    intros Htools Hnodup Hrequery.
    simpl in Hrequery. apply andb_true_iff in Hrequery as [Hr Hrequery].
    rewrite app_assoc in Hnodup. apply Htoolsk; [|done|done].
    apply Htools1; [done| |].
    + rewrite all_tools_app, fmap_app in Hnodup.
      by apply NoDup_app in Hnodup as (? & _).
    + by intros n ->.
Qed.

(** [add_server] changes no entry of the server map under another control
    name than its own. *)
Lemma add_server_other_keys D cfg w k :
  k ≠ name cfg →
  _servers_map (self (add_server D cfg w).2) !! k = _servers_map (self w) !! k.
Proof.
  intros Hk. rewrite add_server_run. simpl.
  destruct (on_initialize D _ _) as [[]|e]; [|done].
  destruct (on_list_tools D _ _) as [tools|e]; simpl;
    by apply lookup_insert_ne.
Qed.

(** When the added control names are pairwise distinct and none of them is
    registered at the start, none is registered when it is added. *)
Lemma distinct_adds_unregistered D cs : ∀ w,
  NoDup (name <$> added_configs cs) →
  (∀ k, k ∈ dom (_servers_map (self w)) → k ∉ name <$> added_configs cs) →
  adds_unregistered D cs w = true.
Proof.
  induction cs as [|[cfg|n] cs IH]; intros w Hnames Hdom; [done| |]; simpl.
  - simpl in Hnames. apply NoDup_cons in Hnames as [Hcfg Hnames].
    apply andb_true_iff. split.
    + apply bool_decide_eq_true. intros Hin. apply (Hdom _ Hin). left.
    + apply IH; [done|]. intros k Hk.
      destruct (decide (k = name cfg)) as [->|Hne]; [done|].
      apply elem_of_dom in Hk. rewrite add_server_other_keys in Hk by done.
      apply elem_of_dom in Hk. intros Hin. apply (Hdom _ Hk). by right.
  - apply IH; [done|]. intros k Hk. apply Hdom.
    rewrite remove_server_map in Hk. apply elem_of_dom in Hk as [s Hs].
    apply lookup_delete_Some in Hs as [_ Hs]. apply elem_of_dom. eauto.
Qed.

(** ** The tool index along a run *)

(** C1, as the code has it.  Start from a new controller and perform any
    sequence of [add_server] and [remove_server] calls in which the added
    control names are pairwise distinct and the control names of all the
    tools reported to the additions are pairwise distinct.  If every call
    returns normally and the [list_tools] that each removal awaits after
    the shutdown returns tools with the control names of the list captured
    when that server was added, then after each call the key set of [_tools_map] is the set of control
    names of the tools of the servers that are values of [_servers_map]. *)
Theorem tool_index_follows_registered_servers D cs cfgs :
  NoDup (name <$> added_configs cs) →
  NoDup (control_name <$> all_tools (registrations D cs (new_world cfgs))) →
  succeeds D cs (new_world cfgs) = true →
  requeries_as_captured D cs (new_world cfgs) = true →
  ∀ k, tool_index_consistent (self (run D (take k cs) (new_world cfgs))).
Proof.
  intros Hnames Htools Hsucc Hrequery k.
  assert (adds_unregistered D cs (new_world cfgs) = true) as Hadds.
  { apply distinct_adds_unregistered; [done|]. intros n Hn.
    by apply elem_of_dom in Hn as [? ?]. }
  assert (history_awaited [] (new_world cfgs)) as Hawaited.
  { intros st Hst. by apply elem_of_nil in Hst. }
  destruct (run_invariant D cs (new_world cfgs) []
              (consistent_servers_init cfgs) eq_refl Hawaited Hadds Hsucc k)
    as (Hc & _ & Hlisted).
  apply tools_listed_consistent; [done|]. by apply Hlisted.
Qed.

Lemma tool_index_follows_registered_servers_witness :
  let cs := [AddServer (cfg "A"); AddServer (cfg "B"); RemoveServer "A"] in
  NoDup (name <$> added_configs cs) ∧
  NoDup (control_name <$> all_tools (registrations steady cs (new_world []))) ∧
  succeeds steady cs (new_world []) = true ∧
  requeries_as_captured steady cs (new_world []) = true ∧
  tool_index_consistent (self (run steady (take 3 cs) (new_world []))) ∧
  dom (_tools_map (self (run steady cs (new_world [])))) = {["B-t3"]}.
Proof.
  intros cs.
  assert (NoDup (name <$> added_configs cs)) as Hnames by by_compute.
  assert (NoDup (control_name <$>
                   all_tools (registrations steady cs (new_world []))))
    as Htools by by_compute.
  assert (succeeds steady cs (new_world []) = true) as Hsucc
    by (vm_compute; reflexivity).
  assert (requeries_as_captured steady cs (new_world []) = true) as Hrequery
    by (vm_compute; reflexivity).
  split; [exact Hnames|]. split; [exact Htools|]. split; [exact Hsucc|].
  split; [exact Hrequery|]. split.
  - exact (tool_index_follows_registered_servers steady cs []
             Hnames Htools Hsucc Hrequery 3).
  - by_compute.
Defined.

(** C1 as the spec states it fails: all control names are distinct and
    every call returns, but the connection that was shut down reports no
    tools to the removal, and the tools of the removed server stay in the
    index while no server is registered. *)
Lemma tool_index_keeps_tools_of_removed_server :
  let cs := [AddServer (cfg "A"); RemoveServer "A"] in
  let w := run empty_after_shutdown cs (new_world []) in
  NoDup (name <$> added_configs cs) ∧
  NoDup (control_name <$>
           all_tools (registrations empty_after_shutdown cs (new_world []))) ∧
  succeeds empty_after_shutdown cs (new_world []) = true ∧
  requeries_as_captured empty_after_shutdown cs (new_world []) = false ∧
  _servers_map (self w) = ∅ ∧
  registered_tool_names (self w) = ∅ ∧
  dom (_tools_map (self w)) = {["A-t1"; "A-t2"]} ∧
  ¬ tool_index_consistent (self w).
Proof.
  intros cs w. split_and!; try (vm_compute; reflexivity); by_compute.
Qed.

(** ** The order of [list_all_servers_tools] *)




(** * Further properties of the controller and of the handlers *)

(** ** What the two mutators leave alone *)

Lemma purge_tools_subseteq tools (m : gmap string DownstreamMCPServerTool) :
  purge_tools tools m ⊆ m.
Proof.
  apply map_subseteq_spec. intros k t. rewrite purge_tools_lookup.
  by destruct (decide (k ∈ control_name <$> tools)).
Qed.

(** X8. Whatever the downstream answers and whether or not it raises,
    [remove_server n] takes exactly the key [n] out of [_servers_map],
    leaves in [_all_servers_tools] a sublist of what was listed, leaves in
    [_tools_map] a submap of what was indexed, and touches neither
    [configs] nor [_initialized]: it never adds anything. *)
Theorem remove_server_only_removes D n w :
  _servers_map (self (remove_server D n w).2)
    = delete n (_servers_map (self w)) ∧
  _all_servers_tools (self (remove_server D n w).2)
    `sublist_of` _all_servers_tools (self w) ∧
  _tools_map (self (remove_server D n w).2) ⊆ _tools_map (self w) ∧
  configs (self (remove_server D n w).2) = configs (self w) ∧
  _initialized (self (remove_server D n w).2) = _initialized (self w).
Proof.
  split; [apply remove_server_map|]. rewrite remove_server_run.
  destruct (_servers_map (self w) !! n) as [server|] eqn:Hn; simpl; [|done].
  destruct (on_shutdown D _ _) as [[]|e]; [|done].
  destruct (on_list_tools D _ _) as [tools|e]; simpl.
  - split_and!; [apply sublist_filter|apply purge_tools_subseteq|done|done].
  - split_and!; [apply sublist_filter|done|done|done].
Qed.

(** X9. Whatever the downstream answers and whether or not it raises,
    [add_server cfg] removes nothing: the ordered list is kept and grows by
    at most the pair of the new server, the entries of [_servers_map] under
    other control names are kept, no key of [_tools_map] disappears, and
    [configs] and [_initialized] are untouched.  It awaits [initialize] on
    the new connection, then at most its [list_tools], and nothing else. *)
Theorem add_server_only_adds D cfg w :
  (_all_servers_tools (self (add_server D cfg w).2)
     = _all_servers_tools (self w) ∨
   ∃ tools, _all_servers_tools (self (add_server D cfg w).2)
     = _all_servers_tools (self w) ++ [(new_server w cfg, tools)]) ∧
  (∀ k, k ≠ name cfg →
     _servers_map (self (add_server D cfg w).2) !! k
       = _servers_map (self w) !! k) ∧
  dom (_servers_map (self w)) ⊆ dom (_servers_map (self (add_server D cfg w).2)) ∧
  dom (_tools_map (self w)) ⊆ dom (_tools_map (self (add_server D cfg w).2)) ∧
  configs (self (add_server D cfg w).2) = configs (self w) ∧
  _initialized (self (add_server D cfg w).2) = _initialized (self w) ∧
  (awaited (add_server D cfg) w = [EvInitialize (new_server w cfg)] ∨
   awaited (add_server D cfg) w
     = [EvInitialize (new_server w cfg);
        EvListTools (new_server w cfg)]).
Proof.
  unfold awaited. rewrite add_server_run. simpl.
  destruct (on_initialize D _ _) as [[]|e]; simpl.
  - destruct (on_list_tools D _ _) as [tools|e]; simpl.
    + split_and!; [right; by exists tools| | | |done|done|].
      * intros k Hk. by apply lookup_insert_ne.
      * rewrite dom_insert_L. set_solver.
      * rewrite dom_index_tools. set_solver.
      * right. by rewrite <-app_assoc, drop_app_length.
    + split_and!; [by left| | |done|done|done|].
      * intros k Hk. by apply lookup_insert_ne.
      * rewrite dom_insert_L. set_solver.
      * right. by rewrite <-app_assoc, drop_app_length.
  - split_and!; [by left|done|done|done|done|done|].
    left. by rewrite drop_app_length.
Qed.

(** ** What [shutdown] does under any downstream behaviour *)

Lemma server_shutdown_run D s w :
  server_shutdown D s w =
  (on_shutdown D (trace w) s,
   {| self := self w; trace := trace w ++ [EvShutdown s] |}).
Proof. reflexivity. Qed.

Lemma for_each_shutdown_any D (l : servers_tools) w :
  ∃ n,
    (for_each l (λ '(server, _), server_shutdown D server) w).2 =
      {| self := self w; trace := trace w ++ (EvShutdown <$> take n l.*1) |} ∧
    ((for_each l (λ '(server, _), server_shutdown D server) w).1 = Ok () ↔
     shutdowns_succeed D (trace w) l.*1 = true).
Proof.
  revert w. induction l as [|[s ts] l IH]; intros [c tr].
  - exists 0. simpl. by rewrite app_nil_r.
  - simpl. unfold mbind, M_bind. rewrite server_shutdown_run. simpl.
    destruct (on_shutdown D tr s) as [[]|e] eqn:Hs.
    + destruct (IH {| self := c; trace := tr ++ [EvShutdown s] |})
        as (n & Hworld & Hok).
      exists (S n). simpl in *. rewrite Hworld, Hok, <-app_assoc. done.
    + exists 1. simpl. done.
Qed.

Lemma shutdown_any D w :
  ∃ n,
    (shutdown D w).2 =
      {| self := self w;
         trace := trace w
           ++ (EvShutdown <$> take n (_all_servers_tools (self w)).*1)
           ++ (if shutdowns_succeed D (trace w) (_all_servers_tools (self w)).*1
               then [EvAclose] else []) |}.
Proof.
  destruct (for_each_shutdown_any D (_all_servers_tools (self w)) w)
    as (n & Hworld & Hok).
  exists n. unfold shutdown, with_asyncio_lock, get_self, mbind, M_bind.
  destruct (for_each _ _ w) as [[[]|e] w1]; simpl in *.
  - rewrite (proj1 Hok eq_refl), Hworld.
    unfold exit_stack_aclose, await. simpl. by rewrite <-app_assoc.
  - destruct (shutdowns_succeed D _ _);
      [discriminate (proj2 Hok eq_refl)|].
    by rewrite Hworld, app_nil_r.
Qed.

(** X6. Whatever the downstream answers, [shutdown] leaves the controller
    object as it was (every server stays mapped and listed, every tool
    stays indexed), awaits nothing but shutdowns of listed connections and
    the close of the exit stack, and awaits that close exactly when the
    shutdown of every listed connection has returned. *)
Theorem shutdown_leaves_registry D w :
  self (shutdown D w).2 = self w ∧
  (∀ ev, ev ∈ awaited (shutdown D) w →
     ev = EvAclose ∨
     ∃ s, ev = EvShutdown s ∧ s ∈ (_all_servers_tools (self w)).*1) ∧
  (EvAclose ∈ awaited (shutdown D) w ↔
   shutdowns_succeed D (trace w) (_all_servers_tools (self w)).*1 = true).
Proof.
  destruct (shutdown_any D w) as (n & Hworld). unfold awaited.
  rewrite Hworld. simpl. rewrite drop_app_length. split_and!; [done| |].
  - intros ev [Hev|Hev]%elem_of_app.
    + right. apply list_elem_of_fmap in Hev as (s & -> & Hs).
      exists s. split; [done|]. by eapply subseteq_take.
    + left. destruct (shutdowns_succeed D _ _);
        [by apply list_elem_of_singleton in Hev|by apply elem_of_nil in Hev].
  - destruct (shutdowns_succeed D _ _); split; try done.
    + intros _. apply elem_of_app. right. left.
    + rewrite app_nil_r. by intros (? & ? & _)%list_elem_of_fmap.
Qed.

Lemma shutdown_awaits_listed D w s :
  EvShutdown s ∈ awaited (shutdown D) w →
  s ∈ (_all_servers_tools (self w)).*1.
Proof.
  destruct (shutdown_any D w) as (n & Hworld). unfold awaited.
  rewrite Hworld. simpl. rewrite drop_app_length.
  intros [Hev|Hev]%elem_of_app.
  - apply list_elem_of_fmap in Hev as (s' & [= ->] & Hs).
    by eapply subseteq_take.
  - destruct (shutdowns_succeed D _ _);
      [by apply list_elem_of_singleton in Hev|by apply elem_of_nil in Hev].
Qed.

(** X11. [shutdown] has no guard against being called again: when the
    shutdowns of the listed connections and the close of the exit stack
    return, a second [shutdown] awaits the shutdown of every listed
    connection once more and closes the exit stack a second time. *)
Theorem shutdown_again_repeats D w :
  let events := EvShutdown <$> (_all_servers_tools (self w)).*1 in
  shutdowns_succeed D (trace w) (_all_servers_tools (self w)).*1 = true →
  on_aclose D (trace w ++ events) = Ok () →
  shutdowns_succeed D (trace w ++ events ++ [EvAclose])
    (_all_servers_tools (self w)).*1 = true →
  awaited (shutdown D ;; shutdown D) w
    = events ++ [EvAclose] ++ events ++ [EvAclose].
Proof.
  intros events Hfirst Hclose Hsecond.
  assert (∀ w0,
    shutdowns_succeed D (trace w0) (_all_servers_tools (self w0)).*1 = true →
    shutdown D w0 =
      (on_aclose D (trace w0 ++ (EvShutdown <$> (_all_servers_tools (self w0)).*1)),
       {| self := self w0;
          trace := trace w0
            ++ (EvShutdown <$> (_all_servers_tools (self w0)).*1)
            ++ [EvAclose] |})) as Hrun.
  { intros w0 Hok. unfold shutdown, with_asyncio_lock, get_self, mbind, M_bind.
    rewrite for_each_shutdown_ok by done.
    unfold exit_stack_aclose, await. simpl. by rewrite <-app_assoc. }
  unfold awaited, mbind, M_bind. rewrite (Hrun w Hfirst). fold events.
  rewrite Hclose, Hrun by done. simpl. fold events.
  by rewrite <-!app_assoc, drop_app_length.
Qed.

Lemma shutdown_again_repeats_witness :
  let w := run steady [AddServer (cfg "A"); AddServer (cfg "B")]
             (new_world []) in
  let a := {| server_id := 1; config := cfg "A" |} in
  let b := {| server_id := 2; config := cfg "B" |} in
  let events := EvShutdown <$> (_all_servers_tools (self w)).*1 in
  shutdowns_succeed steady (trace w) (_all_servers_tools (self w)).*1 = true ∧
  on_aclose steady (trace w ++ events) = Ok () ∧
  shutdowns_succeed steady (trace w ++ events ++ [EvAclose])
    (_all_servers_tools (self w)).*1 = true ∧
  awaited (shutdown steady ;; shutdown steady) w
    = [EvShutdown a; EvShutdown b; EvAclose;
       EvShutdown a; EvShutdown b; EvAclose].
Proof.
  intros w a b events.
  assert (shutdowns_succeed steady (trace w) (_all_servers_tools (self w)).*1
          = true) as Hfirst by (vm_compute; reflexivity).
  assert (on_aclose steady (trace w ++ events) = Ok ()) as Hclose
    by reflexivity.
  assert (shutdowns_succeed steady (trace w ++ events ++ [EvAclose])
            (_all_servers_tools (self w)).*1 = true) as Hsecond
    by (vm_compute; reflexivity).
  split; [exact Hfirst|]. split; [exact Hclose|]. split; [exact Hsecond|].
  rewrite (shutdown_again_repeats steady w Hfirst Hclose Hsecond).
  vm_compute. reflexivity.
Defined.

(** ** Calls that raise half-way *)

Lemma new_server_not_listed w cfg :
  new_server w cfg ∉ (_all_servers_tools (self w)).*1.
Proof.
  intros Hin. pose proof (new_server_above_listed w cfg _ Hin). lia.
Qed.

(** A server object that has had a call awaited on it and is not listed is
    never listed later: [add_server] only lists the object it has just
    built, [remove_server] only drops pairs. *)
Lemma unlisted_after_call D c w s :
  s ∉ (_all_servers_tools (self w)).*1 →
  s ∈ omap event_server (trace w) →
  s ∉ (_all_servers_tools (self (perform D c w).2)).*1.
Proof.
  intros Hunlisted Hawaited. destruct c as [cfg|n]; simpl.
  - rewrite add_server_run. simpl.
    destruct (on_initialize D _ _) as [[]|e]; [|done].
    destruct (on_list_tools D _ _) as [tools|e]; [|done]. simpl.
    rewrite fmap_app. intros [Hin|Hin%list_elem_of_singleton]%elem_of_app;
      [done|]. subst s.
    by apply new_server_above_awaited with (cfg := cfg), Nat.lt_irrefl
      in Hawaited.
  - rewrite remove_server_run.
    destruct (_servers_map (self w) !! n) as [server|]; [|done]. simpl.
    destruct (on_shutdown D _ _) as [[]|e]; [|done].
    destruct (on_list_tools D _ _) as [tools|e]; simpl;
      intros (st & -> & [_ Hst]%list_elem_of_filter)%list_elem_of_fmap;
      apply Hunlisted; exact (list_elem_of_fmap_2 fst _ _ Hst).
Qed.

Lemma unlisted_after_run D cs : ∀ w s,
  s ∉ (_all_servers_tools (self w)).*1 →
  s ∈ omap event_server (trace w) →
  s ∉ (_all_servers_tools (self (run D cs w))).*1.
Proof.
  induction cs as [|c cs IH]; intros w s Hunlisted Hawaited; [done|].
  simpl. apply IH.
  - by apply unlisted_after_call.
  - by apply awaited_after_call.
Qed.

(** X5. When [initialize] of the new connection raises, [add_server]
    raises the same exception and the controller object is unchanged.  When
    [initialize] returns and [list_tools] raises, [add_server] raises with
    the server half registered: [get_server_by_control_name] finds it, but
    it is not listed by [list_all_servers_tools], none of its tools is
    indexed, and after any further sequence of [add_server] and
    [remove_server] calls, whatever the downstream answers, [shutdown] does
    not await its shutdown. *)
Theorem add_server_failure_modes D cfg w e :
  (on_initialize D (trace w) (new_server w cfg) = Raise e →
   add_server D cfg w =
     (Raise e,
      {| self := self w;
         trace := trace w ++ [EvInitialize (new_server w cfg)] |})) ∧
  (on_initialize D (trace w) (new_server w cfg) = Ok () →
   on_list_tools D (trace w ++ [EvInitialize (new_server w cfg)])
     (new_server w cfg) = Raise e →
   (add_server D cfg w).1 = Raise e ∧
   get_server_by_control_name (name cfg) (add_server D cfg w).2
     = (Ok (new_server w cfg), (add_server D cfg w).2) ∧
   list_all_servers_tools (add_server D cfg w).2
     = (Ok (_all_servers_tools (self w)), (add_server D cfg w).2) ∧
   (new_server w cfg ∉ (_all_servers_tools (self w)).*1) ∧
   _tools_map (self (add_server D cfg w).2) = _tools_map (self w) ∧
   ∀ D' cs D'',
     EvShutdown (new_server w cfg)
       ∉ awaited (shutdown D'') (run D' cs (add_server D cfg w).2)).
Proof.
  split.
  - intros Hi. rewrite add_server_run. simpl. by rewrite Hi.
  - intros Hi Hl. rewrite add_server_run. simpl. rewrite Hi, Hl. simpl.
    split_and!; [done| |done|apply new_server_not_listed|done|].
    + unfold get_server_by_control_name. unfold_M.
      unfold get_control_name. simpl. by rewrite lookup_insert_eq.
    + intros D' cs D'' Hin%shutdown_awaits_listed. revert Hin.
      apply unlisted_after_run; simpl.
      * apply new_server_not_listed.
      * rewrite !omap_app, !elem_of_app. left. right. simpl. left.
Qed.

Lemma add_server_failure_modes_witness :
  let w := run steady [AddServer (cfg "A")] (new_world []) in
  let b := {| server_id := 2; config := cfg "B" |} in
  let D := {| on_initialize := λ _ _, Ok ();
              on_list_tools := λ _ _, Raise ConnectionError;
              on_shutdown := λ _ _, Ok ();
              on_aclose := λ _, Ok () |} in
  let later := [RemoveServer "B"; AddServer (cfg "B")] in
  on_initialize unreachable_B (trace w) (new_server w (cfg "B"))
    = Raise ConnectionError ∧
  self (add_server unreachable_B (cfg "B") w).2 = self w ∧
  on_initialize D (trace w) (new_server w (cfg "B")) = Ok () ∧
  on_list_tools D (trace w ++ [EvInitialize (new_server w (cfg "B"))])
    (new_server w (cfg "B")) = Raise ConnectionError ∧
  (get_server_by_control_name "B" (add_server D (cfg "B") w).2).1 = Ok b ∧
  (list_all_servers_tools (add_server D (cfg "B") w).2).1
    = Ok (_all_servers_tools (self w)) ∧
  (EvShutdown b
     ∉ awaited (shutdown steady) (run steady later (add_server D (cfg "B") w).2)).
Proof.
  intros w b D later.
  assert (on_initialize unreachable_B (trace w) (new_server w (cfg "B"))
          = Raise ConnectionError) as Hi by (vm_compute; reflexivity).
  assert (on_initialize D (trace w) (new_server w (cfg "B")) = Ok ())
    as Hi' by reflexivity.
  assert (on_list_tools D
            (trace w ++ [EvInitialize (new_server w (cfg "B"))])
            (new_server w (cfg "B")) = Raise ConnectionError)
    as Hl by reflexivity.
  split; [exact Hi|]. split.
  { exact (f_equal (λ r, self r.2)
             (proj1 (add_server_failure_modes unreachable_B (cfg "B") w
                       ConnectionError) Hi)). }
  split; [exact Hi'|]. split; [exact Hl|].
  destruct (proj2 (add_server_failure_modes D (cfg "B") w ConnectionError)
              Hi' Hl) as (_ & Hget & Hlist & _ & _ & Hnever).
  split; [exact (f_equal fst Hget)|]. split; [exact (f_equal fst Hlist)|].
  exact (Hnever steady later steady).
Defined.

(** X7. When the shutdown of a registered server raises, [remove_server]
    raises with the server already taken out of [_servers_map], while its
    pair is still listed and its tools are still indexed; a later
    [remove_server] of the same control name finds nothing and returns
    without touching anything, so the pair stays listed. *)
Theorem remove_server_failed_shutdown_strands_pair D n w server e :
  _servers_map (self w) !! n = Some server →
  on_shutdown D (trace w) server = Raise e →
  (remove_server D n w).1 = Raise e ∧
  _servers_map (self (remove_server D n w).2) !! n = None ∧
  _all_servers_tools (self (remove_server D n w).2)
    = _all_servers_tools (self w) ∧
  _tools_map (self (remove_server D n w).2) = _tools_map (self w) ∧
  ∀ D', remove_server D' n (remove_server D n w).2
        = (Ok (), (remove_server D n w).2).
Proof.
  intros Hn Hs.
  assert (_servers_map (self (remove_server D n w).2) !! n = None) as Hgone.
  { rewrite remove_server_map. apply lookup_delete_eq. }
  split_and!; [| done | | |].
  - rewrite remove_server_run, Hn. simpl. by rewrite Hs.
  - rewrite remove_server_run, Hn. simpl. by rewrite Hs.
  - rewrite remove_server_run, Hn. simpl. by rewrite Hs.
  - intros D'. rewrite (remove_server_run D'). by rewrite Hgone.
Qed.

Lemma remove_server_failed_shutdown_strands_pair_witness :
  let w := run failing_shutdown [AddServer (cfg "A")] (new_world []) in
  let a := {| server_id := 1; config := cfg "A" |} in
  _servers_map (self w) !! "A" = Some a ∧
  on_shutdown failing_shutdown (trace w) a = Raise ConnectionError ∧
  (remove_server failing_shutdown "A" w).1 = Raise ConnectionError ∧
  _all_servers_tools (self (remove_server failing_shutdown "A" w).2)
    = [(a, [tl "A" "t1"; tl "A" "t2"])].
Proof.
  intros w a.
  assert (_servers_map (self w) !! "A" = Some a) as Hn
    by (vm_compute; reflexivity).
  assert (on_shutdown failing_shutdown (trace w) a = Raise ConnectionError)
    as Hs by reflexivity.
  split; [exact Hn|]. split; [exact Hs|].
  destruct (remove_server_failed_shutdown_strands_pair failing_shutdown
              "A" w a ConnectionError Hn Hs) as (Hraise & _ & Hlist & _).
  split; [exact Hraise|]. rewrite Hlist. vm_compute. reflexivity.
Defined.

(** X12. Once [remove_server] has awaited the shutdown of a server and that
    shutdown has returned, the server is listed no more: after any further
    sequence of [add_server] and [remove_server] calls, also one that adds
    the same configuration again, and whatever the downstream answers,
    [shutdown] does not await the shutdown of that server object again. *)
Theorem removed_server_not_shut_down_again D D' D'' n w server cs :
  _servers_map (self w) !! n = Some server →
  on_shutdown D (trace w) server = Ok () →
  EvShutdown server
    ∉ awaited (shutdown D'') (run D' cs (remove_server D n w).2).
Proof.
  intros Hn Hs Hin%shutdown_awaits_listed. revert Hin.
  apply unlisted_after_run; rewrite remove_server_run, Hn; simpl; rewrite Hs.
  - destruct (on_list_tools D _ _) as [tools|e]; simpl;
      intros ([s ts] & -> & [Hne _]%list_elem_of_filter)%list_elem_of_fmap;
      simpl in Hne; apply server_ne_true in Hne; done.
  - destruct (on_list_tools D _ _) as [tools|e]; simpl;
      rewrite !omap_app, !elem_of_app; left; right; left.
Qed.

Lemma removed_server_not_shut_down_again_witness :
  let w := run steady [AddServer (cfg "A"); AddServer (cfg "B")]
             (new_world []) in
  let a := {| server_id := 1; config := cfg "A" |} in
  let b := {| server_id := 2; config := cfg "B" |} in
  let a' := {| server_id := 3; config := cfg "A" |} in
  let later := [AddServer (cfg "A")] in
  _servers_map (self w) !! "A" = Some a ∧
  on_shutdown steady (trace w) a = Ok () ∧
  (EvShutdown a
     ∉ awaited (shutdown steady) (run steady later (remove_server steady "A" w).2)) ∧
  awaited (shutdown steady) (run steady later (remove_server steady "A" w).2)
    = [EvShutdown b; EvShutdown a'; EvAclose].
Proof.
  intros w a b a' later.
  assert (_servers_map (self w) !! "A" = Some a) as Hn
    by (vm_compute; reflexivity).
  assert (on_shutdown steady (trace w) a = Ok ()) as Hs by reflexivity.
  split; [exact Hn|]. split; [exact Hs|]. split.
  - exact (removed_server_not_shut_down_again steady steady steady "A" w a
             later Hn Hs).
  - vm_compute. reflexivity.
Defined.

(** X10. After a [remove_server] that went through, the control name no
    longer resolves ([get_server_by_control_name] raises [KeyError]), and
    [get_tool_by_control_name] raises [KeyError] for every control name
    borne by a tool that the removal's [list_tools] reported, whichever
    server had indexed that entry; every other control name resolves as
    before. *)
Theorem lookups_after_remove_server D n w server tools :
  _servers_map (self w) !! n = Some server →
  on_shutdown D (trace w) server = Ok () →
  on_list_tools D (trace w ++ [EvShutdown server]) server = Ok tools →
  (get_server_by_control_name n (remove_server D n w).2).1
    = Raise (KeyError n) ∧
  ∀ k, (get_tool_by_control_name k (remove_server D n w).2).1 =
       if decide (k ∈ control_name <$> tools) then Raise (KeyError k)
       else (get_tool_by_control_name k w).1.
Proof.
  intros Hn Hs Hl. split.
  - unfold get_server_by_control_name. unfold_M.
    rewrite remove_server_map, lookup_delete_eq. done.
  - intros k. unfold get_tool_by_control_name. unfold_M.
    rewrite remove_server_run, Hn. simpl. rewrite Hs, Hl. simpl.
    rewrite purge_tools_lookup.
    destruct (decide (k ∈ control_name <$> tools)); [done|].
    by destruct (_tools_map (self w) !! k).
Qed.

Lemma lookups_after_remove_server_witness :
  let w := run steady [AddServer (cfg "A"); AddServer (cfg "B")]
             (new_world []) in
  let a := {| server_id := 1; config := cfg "A" |} in
  _servers_map (self w) !! "A" = Some a ∧
  on_shutdown steady (trace w) a = Ok () ∧
  on_list_tools steady (trace w ++ [EvShutdown a]) a
    = Ok [tl "A" "t1"; tl "A" "t2"] ∧
  (get_server_by_control_name "A" (remove_server steady "A" w).2).1
    = Raise (KeyError "A") ∧
  (get_tool_by_control_name "A-t2" (remove_server steady "A" w).2).1
    = Raise (KeyError "A-t2") ∧
  (get_tool_by_control_name "B-t3" (remove_server steady "A" w).2).1
    = Ok (tl "B" "t3").
Proof.
  intros w a.
  assert (_servers_map (self w) !! "A" = Some a) as Hn
    by (vm_compute; reflexivity).
  assert (on_shutdown steady (trace w) a = Ok ()) as Hs by reflexivity.
  assert (on_list_tools steady (trace w ++ [EvShutdown a]) a
          = Ok [tl "A" "t1"; tl "A" "t2"]) as Hl by reflexivity.
  split; [exact Hn|]. split; [exact Hs|]. split; [exact Hl|].
  destruct (lookups_after_remove_server steady "A" w a _ Hn Hs Hl)
    as [Hserver Htool].
  split; [exact Hserver|]. split.
  - rewrite (Htool "A-t2"). vm_compute. reflexivity.
  - rewrite (Htool "B-t3"). vm_compute. reflexivity.
Defined.

(** ** Initialisation as a run of additions *)


Lemma register_all_run D cfgs w :
  ((for_each cfgs (register_downstream_mcp_server D) w).1 = Ok () ↔
   succeeds D (AddServer <$> cfgs) w = true) ∧
  (succeeds D (AddServer <$> cfgs) w = true →
   for_each cfgs (register_downstream_mcp_server D) w
   = (Ok (), run D (AddServer <$> cfgs) w)).
Proof.
  revert w. induction cfgs as [|cfg cfgs IH]; intros w; [done|].
  simpl. unfold mbind, M_bind.
  change (register_downstream_mcp_server D cfg w) with (add_server D cfg w).
  destruct (add_server D cfg w) as [[[]|e] w1]; simpl.
  - apply IH.
  - split; [split|]; done.
Qed.

(** X13. [initialize] behaves as the [add_server] calls of its
    configurations made one after the other: it returns exactly when each
    of these calls returns, and it then leaves the world those calls leave,
    with [_initialized] set. *)
Theorem initialize_is_a_run_of_add_server D w :
  ((initialize D w).1 = Ok () ↔
   succeeds D (AddServer <$> configs (self w)) w = true) ∧
  (succeeds D (AddServer <$> configs (self w)) w = true →
   initialize D w =
   (Ok (),
    {| self := set_initialized true
                 (self (run D (AddServer <$> configs (self w)) w));
       trace := trace (run D (AddServer <$> configs (self w)) w) |})).
Proof.
  destruct (register_all_run D (configs (self w)) w) as [Hiff Hrun].
  unfold initialize, with_asyncio_lock, get_self, mbind, M_bind.
  split.
  - rewrite <-Hiff.
    by destruct (for_each _ _ w) as [[[]|e] w1].
  - intros Hsucc. by rewrite (Hrun Hsucc).
Qed.

Lemma initialize_is_a_run_of_add_server_witness :
  let w := new_world [cfg "A"; cfg "B"] in
  succeeds steady (AddServer <$> configs (self w)) w = true ∧
  (initialize steady w).1 = Ok () ∧
  self (initialize steady w).2
    = set_initialized true
        (self (run steady [AddServer (cfg "A"); AddServer (cfg "B")] w)).
Proof.
  intros w.
  assert (succeeds steady (AddServer <$> configs (self w)) w = true) as Hsucc
    by (vm_compute; reflexivity).
  split; [exact Hsucc|].
  destruct (initialize_is_a_run_of_add_server steady w) as [Hiff Hrun].
  split; [exact (proj2 Hiff Hsucc)|].
  exact (f_equal (λ r, self r.2) (Hrun Hsucc)).
Defined.

(** X14. On a controller that is not yet initialised, [is_initialized]
    after [initialize] tells whether [initialize] returned: it is true
    when every registration returned and false when one of them raised. *)
Theorem is_initialized_reports_successful_initialize D w :
  _initialized (self w) = false →
  is_initialized (initialize D w).2 =
  (Ok (bool_decide ((initialize D w).1 = Ok ())), (initialize D w).2).
Proof.
  intros Hflag. unfold is_initialized, initialize, with_asyncio_lock.
  unfold get_self, modify_self, mbind, M_bind, mret, M_ret.
  pose proof (register_all_keeps_flags D (configs (self w)) w) as Hkept.
  destruct (for_each _ _ w) as [[[]|e] w1]; simpl in *; [done|].
  by rewrite Hkept, Hflag.
Qed.

Lemma is_initialized_reports_successful_initialize_witness :
  let w := new_world [cfg "A"; cfg "B"] in
  _initialized (self w) = false ∧
  (is_initialized (initialize steady w).2).1 = Ok true ∧
  (is_initialized (initialize unreachable_B w).2).1 = Ok false.
Proof.
  intros w.
  assert (_initialized (self w) = false) as Hflag by reflexivity.
  split; [exact Hflag|]. split.
  - rewrite (is_initialized_reports_successful_initialize steady w Hflag).
    vm_compute. reflexivity.
  - rewrite (is_initialized_reports_successful_initialize unreachable_B w
               Hflag).
    vm_compute. reflexivity.
Defined.



(** ** The two handlers at the boundary *)

Lemma add_new_server_run D cfg w :
  Api.add_new_server D cfg w =
  match _servers_map (self w) !! name cfg with
  | Some _ =>
      (Raise (HTTPException 409
         ("Server with control name '" +:+ name cfg +:+ "' already exists.")),
       w)
  | None =>
      match add_server D cfg w with
      | (Ok _, w') =>
          (Ok {| Api.status := 201;
                 Api.message :=
                   "Server '" +:+ name cfg +:+ "' added successfully." |}, w')
      | (Raise e, w') =>
          (Raise (at_boundary
             ("An unexpected error occurred while adding server '"
                +:+ name cfg +:+ "'.") e), w')
      end
  end.
Proof.
  unfold Api.add_new_server, Api.try_except, get_server_by_control_name.
  unfold_M. destruct (_servers_map (self w) !! name cfg); simpl; [done|].
  destruct (add_server D cfg w) as [[[]|e] w']; [done|].
  by destruct e.
Qed.

Lemma remove_existing_server_run D n w :
  Api.remove_existing_server D n w =
  match _servers_map (self w) !! n with
  | None =>
      (Raise (HTTPException 404
         ("Server with control name '" +:+ n +:+ "' not found.")), w)
  | Some _ =>
      match remove_server D n w with
      | (Ok _, w') =>
          (Ok {| Api.status := 200;
                 Api.message := "Server '" +:+ n +:+ "' removed successfully." |},
           w')
      | (Raise e, w') =>
          (Raise (at_boundary
             ("An unexpected error occurred while removing server '"
                +:+ n +:+ "'.") e), w')
      end
  end.
Proof.
  unfold Api.remove_existing_server, Api.try_except,
    get_server_by_control_name.
  unfold_M. destruct (_servers_map (self w) !! n); simpl; [|done].
  destruct (remove_server D n w) as [[[]|e] w']; [done|].
  by destruct e.
Qed.

Lemma at_boundary_http detail e :
  is_HTTPException (at_boundary detail e) = true
  ∨ at_boundary detail e = CancelledError.
Proof. destruct e; simpl; auto. Qed.

(** X1. When the control name is no key of [_servers_map],
    [remove_existing_server] raises [HTTPException] with status 404 and the
    world is untouched: [remove_server] is not entered.  When the name is
    registered it runs [remove_server]; it answers 200 with the
    acknowledgment when [remove_server] returns, and turns an exception of
    [remove_server] into status 500 (an [HTTPException] is passed on, a
    [CancelledError] is not caught). *)
Theorem remove_existing_server_not_found_or_remove D n w :
  (n ∉ dom (_servers_map (self w)) →
   Api.remove_existing_server D n w =
   (Raise (HTTPException 404
      ("Server with control name '" +:+ n +:+ "' not found.")), w)) ∧
  (n ∈ dom (_servers_map (self w)) →
   Api.remove_existing_server D n w =
   match remove_server D n w with
   | (Ok _, w') =>
       (Ok {| Api.status := 200;
              Api.message := "Server '" +:+ n +:+ "' removed successfully." |},
        w')
   | (Raise e, w') =>
       (Raise
          (if is_HTTPException e then e
           else if is_Exception e then
             HTTPException 500
               ("An unexpected error occurred while removing server '"
                  +:+ n +:+ "'.")
           else e), w')
   end).
Proof.
  rewrite remove_existing_server_run. split.
  - intros Habsent%not_elem_of_dom. by rewrite Habsent.
  - intros [server Hn]%elem_of_dom. by rewrite Hn.
Qed.

Lemma remove_existing_server_not_found_or_remove_witness :
  let w := run steady [AddServer (cfg "A")] (new_world []) in
  ("B" ∉ dom (_servers_map (self w))) ∧
  ("A" ∈ dom (_servers_map (self w))) ∧
  Api.remove_existing_server steady "B" w =
    (Raise (HTTPException 404
       "Server with control name 'B' not found."), w) ∧
  (Api.remove_existing_server steady "A" w).1 =
    Ok {| Api.status := 200;
          Api.message := "Server 'A' removed successfully." |} ∧
  (Api.remove_existing_server failing_shutdown "A" w).1 =
    Raise (HTTPException 500
      "An unexpected error occurred while removing server 'A'.").
Proof.
  intros w.
  assert ("B" ∉ dom (_servers_map (self w))) as Habsent by by_compute.
  assert ("A" ∈ dom (_servers_map (self w))) as Hthere by by_compute.
  split; [exact Habsent|]. split; [exact Hthere|]. split; [|split].
  - exact (proj1 (remove_existing_server_not_found_or_remove steady "B" w)
             Habsent).
  - rewrite (proj2 (remove_existing_server_not_found_or_remove steady "A" w)
               Hthere).
    vm_compute. reflexivity.
  - rewrite (proj2 (remove_existing_server_not_found_or_remove
                      failing_shutdown "A" w) Hthere).
    vm_compute. reflexivity.
Defined.

(** X2. Whatever the controller and the downstream do, an exception that
    leaves [add_new_server] or [remove_existing_server] is an
    [HTTPException], the only other one being a [CancelledError], which
    [except Exception] does not catch: no [KeyError], [ValueError] or
    [ConnectionError] of the controller reaches the caller. *)
Theorem handlers_raise_only_http D cfg n w :
  (∀ e, (Api.add_new_server D cfg w).1 = Raise e →
        is_HTTPException e = true ∨ e = CancelledError) ∧
  (∀ e, (Api.remove_existing_server D n w).1 = Raise e →
        is_HTTPException e = true ∨ e = CancelledError).
Proof.
  rewrite add_new_server_run, remove_existing_server_run. split; intros e.
  - destruct (_servers_map (self w) !! name cfg); simpl.
    + intros [= <-]. by left.
    + destruct (add_server D cfg w) as [[[]|e'] w']; simpl; [done|].
      intros [= <-]. apply at_boundary_http.
  - destruct (_servers_map (self w) !! n); simpl.
    + destruct (remove_server D n w) as [[[]|e'] w']; simpl; [done|].
      intros [= <-]. apply at_boundary_http.
    + intros [= <-]. by left.
Qed.

Lemma handlers_raise_only_http_witness :
  let w := run steady [AddServer (cfg "A")] (new_world []) in
  let e := HTTPException 500
             "An unexpected error occurred while adding server 'B'." in
  (Api.add_new_server unreachable_B (cfg "B") w).1 = Raise e ∧
  (is_HTTPException e = true ∨ e = CancelledError).
Proof.
  intros w e.
  assert ((Api.add_new_server unreachable_B (cfg "B") w).1 = Raise e)
    as Hraise by (vm_compute; reflexivity).
  split; [exact Hraise|].
  exact (proj1 (handlers_raise_only_http unreachable_B (cfg "B") "A" w)
           e Hraise).
Defined.

(** X3. Whatever the first call did, a second [remove_existing_server] of
    the same control name answers 404 and touches nothing: the first call
    either found no such server, or entered [remove_server], which takes
    the server out of [_servers_map] before anything can raise. *)
Theorem remove_existing_server_again_not_found D D' n w :
  Api.remove_existing_server D' n (Api.remove_existing_server D n w).2 =
  (Raise (HTTPException 404
     ("Server with control name '" +:+ n +:+ "' not found.")),
   (Api.remove_existing_server D n w).2).
Proof.
  assert (_servers_map (self (Api.remove_existing_server D n w).2) !! n = None)
    as Hgone.
  { rewrite remove_existing_server_run.
    destruct (_servers_map (self w) !! n) as [server|] eqn:Hn; [|done].
    pose proof (remove_server_map D n w) as Hmap.
    destruct (remove_server D n w) as [[[]|e] w']; simpl in *;
      rewrite Hmap; apply lookup_delete_eq. }
  rewrite (remove_existing_server_run D'). by rewrite Hgone.
Qed.

(** X4. Once [add_new_server] has got past the [initialize] of the new
    connection, the control name is taken: a second [add_new_server] with
    the same name answers 409 and touches nothing, also when the first call
    answered 500 because [list_tools] raised.  When instead [initialize]
    raised on a new name, the controller object is unchanged. *)
Theorem add_new_server_again_conflicts D D' cfg w :
  (on_initialize D (trace w) (new_server w cfg) = Ok () →
   Api.add_new_server D' cfg (Api.add_new_server D cfg w).2 =
   (Raise (HTTPException 409
      ("Server with control name '" +:+ name cfg +:+ "' already exists.")),
    (Api.add_new_server D cfg w).2)) ∧
  (∀ e, name cfg ∉ dom (_servers_map (self w)) →
        on_initialize D (trace w) (new_server w cfg) = Raise e →
        self (Api.add_new_server D cfg w).2 = self w).
Proof.
  split.
  - intros Hi.
    assert (is_Some (_servers_map (self (Api.add_new_server D cfg w).2)
                       !! name cfg)) as [s Htaken].
    { rewrite add_new_server_run.
      destruct (_servers_map (self w) !! name cfg) as [server|] eqn:Hn;
        [simpl; rewrite Hn; eauto|].
      rewrite add_server_run. simpl. rewrite Hi.
      destruct (on_list_tools D _ _) as [tools|e]; simpl;
        unfold get_control_name; simpl; rewrite lookup_insert_eq; eauto. }
    rewrite (add_new_server_run D'). by rewrite Htaken.
  - intros e Hnew%not_elem_of_dom Hi.
    rewrite add_new_server_run, Hnew, add_server_run. simpl. by rewrite Hi.
Qed.

Lemma add_new_server_again_conflicts_witness :
  let w := new_world [] in
  let D := {| on_initialize := λ _ _, Ok ();
              on_list_tools := λ _ _, Raise ConnectionError;
              on_shutdown := λ _ _, Ok ();
              on_aclose := λ _, Ok () |} in
  on_initialize D (trace w) (new_server w (cfg "A")) = Ok () ∧
  (Api.add_new_server D (cfg "A") w).1 =
    Raise (HTTPException 500
      "An unexpected error occurred while adding server 'A'.") ∧
  (Api.add_new_server steady (cfg "A") (Api.add_new_server D (cfg "A") w).2).1
    = Raise (HTTPException 409
        "Server with control name 'A' already exists.") ∧
  (name (cfg "B") ∉ dom (_servers_map (self w))) ∧
  on_initialize unreachable_B (trace w) (new_server w (cfg "B"))
    = Raise ConnectionError ∧
  self (Api.add_new_server unreachable_B (cfg "B") w).2 = self w.
Proof.
  intros w D.
  assert (on_initialize D (trace w) (new_server w (cfg "A")) = Ok ())
    as Hi by reflexivity.
  assert (name (cfg "B") ∉ dom (_servers_map (self w))) as Hnew
    by by_compute.
  assert (on_initialize unreachable_B (trace w)
            (new_server w (cfg "B")) = Raise ConnectionError) as Hi'
    by reflexivity.
  split; [exact Hi|]. split; [vm_compute; reflexivity|]. split.
  { exact (f_equal fst
             (proj1 (add_new_server_again_conflicts D steady (cfg "A") w) Hi)). }
  split; [exact Hnew|]. split; [exact Hi'|].
  exact (proj2 (add_new_server_again_conflicts unreachable_B steady
                  (cfg "B") w) ConnectionError Hnew Hi').
Defined.
